(** * cogito-meetings: turn ingestion and meeting reconciliation

    A shallow embedding of [server.js] (both the Supabase-backed and the
    PostgreSQL-backed server) over the tables of
    [migrations/001_initial_schema.sql].

    - A table is the list of its rows in insertion order; an INSERT appends.
    - Each [pool.query] / Supabase call is one atomic store operation that
      either returns a value or reports an error; rows written before an
      error stay (the handlers open no transaction).
    - Clock readings ([new Date()], [NOW()]) and the answers of the Recall.ai
      API are inputs of the handler that reads them. *)

From Stdlib Require Import Ascii String DecimalString.
From Stdlib Require Import ZArith List Bool Lia Sorted.
Import ListNotations.

Local Open Scope string_scope.
Local Open Scope Z_scope.

(** ** Values *)

(** [uuid_generate_v4()] keys: the n-th generated key is [n]. *)
Definition uuid := nat.
(** ISO-8601 text, as produced by [new Date().toISOString()] and [NOW()]. *)
Definition timestamptz := string.
(** An opaque JSON document (the Recall.ai transcript). *)
Definition json := string.

(** JavaScript [v || d] on an optional string: [undefined], [null] and the
    empty string are falsy. *)
Definition or_else (v : option string) (d : string) : string :=
  match v with
  | Some s => if (s =? "")%string then d else s
  | None => d
  end.

(** JavaScript truthiness of an optional string, as in [if (event.bot_id)]. *)
Definition truthy (v : option string) : bool :=
  match v with
  | Some s => negb (s =? "")%string
  | None => false
  end.

(** JavaScript [v === 'literal'] on an optional string. *)
Definition strict_eq (v : option string) (literal : string) : bool :=
  match v with
  | Some s => (s =? literal)%string
  | None => false
  end.

(** [transcript.sequence || 0]: a missing hint and the hint 0 both give 0. *)
Definition or_zero (v : option Z) : Z :=
  match v with
  | Some z => z
  | None => 0
  end.

(** A value spliced into a template literal: [`${v}`]. *)
Definition template (v : option string) : string :=
  match v with
  | Some s => s
  | None => "undefined"
  end.

(** A JSON scalar of a request body, as [client_id] may be. *)
Inductive js_scalar :=
| Num (z : Z)
| Str (s : string).

(** The value of a decimal digit. *)
Definition digit (c : ascii) : option Z :=
  let n := Z.of_nat (nat_of_ascii c) in
  if (48 <=? n) && (n <=? 57) then Some (n - 48) else None.

Fixpoint digits (s : string) (acc : Z) : option Z :=
  match s with
  | EmptyString => Some acc
  | String c s' =>
      match digit c with
      | Some d => digits s' (10 * acc + d)
      | None => None
      end
  end.

Definition int8_min : Z := -9223372036854775808.
Definition int8_max : Z := 9223372036854775807.

(** The BIGINT a parameter is read as: a number as it is, a text as its
    decimal reading; None where PostgreSQL rejects the value. *)
Definition to_bigint (v : js_scalar) : option Z :=
  let ranged z :=
    if (int8_min <=? z) && (z <=? int8_max) then Some z else None in
  let unsigned s :=
    match s with
    | EmptyString => None
    | _ => digits s 0
    end in
  match v with
  | Num z => ranged z
  | Str EmptyString => None
  | Str (String c s' as s) =>
      if Ascii.eqb c "-"%char then
        match unsigned s' with
        | Some z => ranged (- z)
        | None => None
        end
      else
        match unsigned s with
        | Some z => ranged z
        | None => None
        end
  end.

(** A nullable BIGINT parameter: [undefined] is sent as NULL. *)
Definition bigint_param (v : option js_scalar) : option (option Z) :=
  match v with
  | None => Some None
  | Some x =>
      match to_bigint x with
      | Some z => Some (Some z)
      | None => None
      end
  end.

(** PostgreSQL INTEGER. *)
Definition int4_min : Z := -2147483648.
Definition int4_max : Z := 2147483647.
Definition in_int4 (z : Z) : bool := (int4_min <=? z) && (z <=? int4_max).

(** ** Tables (migrations/001_initial_schema.sql) *)

Module Blocks.
Record row := mk {
  block_id : uuid;
  name : string;                      (* VARCHAR(255) NOT NULL *)
  description : option string;
  block_type : option string;
  created_by : option string;         (* metadata.created_by / created_by *)
  created_at : timestamptz;
  updated_at : timestamptz }.
End Blocks.

Module BlockMeetings.
Record row := mk {
  block_id : uuid;                    (* PRIMARY KEY REFERENCES blocks *)
  recall_bot_id : string;             (* UNIQUE NOT NULL *)
  meeting_url : string;               (* NOT NULL *)
  status : option string;
  invited_by_user_id : option Z;
  full_transcript : option json;
  started_at : timestamptz;
  ended_at : option timestamptz;
  created_at : timestamptz;
  updated_at : timestamptz }.
End BlockMeetings.

Module BlockAttendees.
Record row := mk {
  id : Z;                             (* BIGSERIAL PRIMARY KEY *)
  block_id : uuid;                    (* REFERENCES blocks *)
  name : string;                      (* NOT NULL *)
  user_id : option Z;
  story : option string;
  speaking_time_seconds : option Z;   (* DEFAULT 0 *)
  created_at : timestamptz;
  updated_at : timestamptz }.
End BlockAttendees.

Module Turns.
(** [metadata] of a turn written by the PostgreSQL server. *)
Record meta := mk_meta {
  md_timestamp : string;
  md_bot_id : option string }.

(** The Supabase server writes the columns [turn_text], [turn_timestamp]
    and [client_id] of the hosted [turns] table, which no migration under
    this repository declares; they are kept in [content], [timestamp] and
    [client_id], under the constraints of migration 001. *)
Record row := mk {
  turn_id : uuid;
  participant_id : option Z;
  content : string;                   (* TEXT NOT NULL *)
  source_type : option string;
  metadata : option meta;             (* None: the default '{}' *)
  timestamp : timestamptz;
  client_id : option Z;
  created_at : timestamptz }.
End Turns.

Module BlockTurns.
Record row := mk {
  block_id : uuid;                    (* REFERENCES blocks *)
  turn_id : uuid;                     (* REFERENCES turns *)
  sequence_order : Z;                 (* INTEGER NOT NULL *)
  created_at : timestamptz }.
End BlockTurns.

(** The database: the five tables and the two key generators. *)
Record store := mk_store {
  blocks : list Blocks.row;
  block_meetings : list BlockMeetings.row;
  block_attendees : list BlockAttendees.row;
  turns : list Turns.row;
  block_turns : list BlockTurns.row;
  uuid_gen : nat;                       (* keys handed out by uuid_generate_v4 *)
  block_attendees_id_seq : Z }.         (* last value of the BIGSERIAL sequence *)

Definition empty_store : store :=
  mk_store [] [] [] [] [] 0%nat 0.

(** ** Errors and the handler monad *)

Inductive pg_error :=
| not_null_violation (column : string)
| unique_violation (constraint : string)
| foreign_key_violation (constraint : string)
| string_data_right_truncation
| invalid_text_representation
| numeric_value_out_of_range.

Inductive exn :=
| DatabaseError (e : pg_error)
| TypeError (msg : string)
| SyntaxError
| FetchError.

Inductive result (A : Type) :=
| Ok (a : A)
| Throw (e : exn).
Arguments Ok {A} a.
Arguments Throw {A} e.

Inductive log_entry :=
| console_log (msg : string)
| console_error (msg : string).

(** What a handler can change: the database and the console. *)
Record world := mk_world {
  db : store;
  console : list log_entry }.

Definition M (A : Type) : Type := world -> result A * world.

Definition ret {A} (a : A) : M A := fun w => (Ok a, w).

Definition bind {A B} (m : M A) (k : A -> M B) : M B :=
  fun w =>
    match m w with
    | (Ok a, w') => k a w'
    | (Throw e, w') => (Throw e, w')
    end.

Definition throw {A} (e : exn) : M A := fun w => (Throw e, w).

(** [try { body } catch (error) { handler }] *)
Definition try_catch {A} (body : M A) (handler : exn -> M A) : M A :=
  fun w =>
    match body w with
    | (Ok a, w') => (Ok a, w')
    | (Throw e, w') => handler e w'
    end.

Definition say (l : log_entry) : M unit :=
  fun w => (Ok tt, mk_world (db w) (console w ++ [l])).

(** [await pool.query(...)]: one store operation. *)
Definition query {A} (op : store -> result A * store) : M A :=
  fun w =>
    match op (db w) with
    | (r, s') => (r, mk_world s' (console w))
    end.

Declare Scope js_scope.
Delimit Scope js_scope with js.
Notation "x <- c ;; k" := (bind c (fun x => k))
  (at level 100, c at next level, right associativity) : js_scope.
Notation "c ;;; k" := (bind c (fun _ => k))
  (at level 100, right associativity) : js_scope.
Local Open Scope js_scope.

(** ** Store operations (the SQL statements of server.js) *)

Definition block_exists (b : uuid) (s : store) : bool :=
  existsb (fun r => Nat.eqb (Blocks.block_id r) b) (blocks s).

Definition turn_exists (t : uuid) (s : store) : bool :=
  existsb (fun r => Nat.eqb (Turns.turn_id r) t) (turns s).

(** [SELECT block_id FROM block_meetings WHERE recall_bot_id = $1];
    an [undefined] parameter is sent as NULL and matches no row. *)
Definition select_meeting_by_bot (bot : option string) (s : store)
  : list BlockMeetings.row :=
  match bot with
  | Some b => filter (fun m => (BlockMeetings.recall_bot_id m =? b)%string)
                     (block_meetings s)
  | None => []
  end.

Definition select_block_id_by_bot (bot : option string) (s : store)
  : result (list uuid) * store :=
  (Ok (map BlockMeetings.block_id (select_meeting_by_bot bot s)), s).

(** [SELECT * FROM block_attendees WHERE block_id = $1 AND name = $2] *)
Definition attendees_named (blockId : uuid) (speakerName : option string)
  (s : store) : list BlockAttendees.row :=
  match speakerName with
  | Some n =>
      filter (fun a => Nat.eqb (BlockAttendees.block_id a) blockId
                       && (BlockAttendees.name a =? n)%string)
             (block_attendees s)
  | None => []
  end.

Definition select_attendees (blockId : uuid) (speakerName : option string)
  (s : store) : result (list BlockAttendees.row) * store :=
  (Ok (attendees_named blockId speakerName s), s).

(** [INSERT INTO block_attendees (block_id, name, story) VALUES ($1, $2, $3)
    RETURNING *].  The sequence value is consumed even when the row is
    rejected; the unique index is [idx_block_attendees_unique]. *)
Definition insert_attendee (now : timestamptz) (blockId : uuid)
  (speakerName : option string) (story : string) (s : store)
  : result BlockAttendees.row * store :=
  let new_id := block_attendees_id_seq s + 1 in
  let s1 := mk_store (blocks s) (block_meetings s) (block_attendees s)
                     (turns s) (block_turns s) (uuid_gen s) new_id in
  match speakerName with
  | None => (Throw (DatabaseError (not_null_violation "name")), s1)
  | Some n =>
      if negb (block_exists blockId s) then
        (Throw (DatabaseError
                  (foreign_key_violation "block_attendees_block_id_fkey")), s1)
      else
        match attendees_named blockId (Some n) s with
        | _ :: _ =>
            (Throw (DatabaseError
                      (unique_violation "idx_block_attendees_unique")), s1)
        | [] =>
            let a := BlockAttendees.mk new_id blockId n None (Some story)
                                       (Some 0) now now in
            (Ok a,
             mk_store (blocks s) (block_meetings s) (block_attendees s ++ [a])
                      (turns s) (block_turns s) (uuid_gen s) new_id)
        end
  end.

(** [INSERT INTO turns (...) VALUES (...) RETURNING turn_id].  The
    PostgreSQL server sends (participant_id, content, source_type, metadata)
    and leaves [timestamp] to its default; the Supabase server sends
    (participant_id, turn_text, source_type, turn_timestamp, client_id). *)
Definition insert_turn (now : timestamptz) (participant : option Z)
  (content : option string) (source : option string)
  (md : option Turns.meta) (ts : option timestamptz) (client : option Z)
  (s : store) : result Turns.row * store :=
  let tid := uuid_gen s in
  let s1 := mk_store (blocks s) (block_meetings s) (block_attendees s)
                     (turns s) (block_turns s) (S tid)
                     (block_attendees_id_seq s) in
  match content with
  | None => (Throw (DatabaseError (not_null_violation "content")), s1)
  | Some c =>
      let t := Turns.mk tid participant c source md
                        (match ts with Some t => t | None => now end)
                        client now in
      (Ok t,
       mk_store (blocks s) (block_meetings s) (block_attendees s)
                (turns s ++ [t]) (block_turns s) (S tid)
                (block_attendees_id_seq s))
  end.

(** The positions recorded for a block, in insertion order. *)
Definition positions (blockId : uuid) (s : store) : list Z :=
  map BlockTurns.sequence_order
      (filter (fun r => Nat.eqb (BlockTurns.block_id r) blockId)
              (block_turns s)).

(** SQL [MAX]: NULL over no rows. *)
Fixpoint sql_max (l : list Z) : option Z :=
  match l with
  | [] => None
  | x :: l' =>
      match sql_max l' with
      | None => Some x
      | Some m => Some (Z.max x m)
      end
  end.

(** [COALESCE(v, 0)] *)
Definition coalesce0 (v : option Z) : Z :=
  match v with
  | Some z => z
  | None => 0
  end.

(** [SELECT COALESCE(MAX(sequence_order), 0) + 1 as next_order
    FROM block_turns WHERE block_id = $1]; INTEGER addition raises
    instead of wrapping. *)
Definition select_next_order (blockId : uuid) (s : store)
  : result Z * store :=
  let n := coalesce0 (sql_max (positions blockId s)) + 1 in
  if n <=? int4_max then (Ok n, s)
  else (Throw (DatabaseError numeric_value_out_of_range), s).

(** [INSERT INTO block_turns (block_id, turn_id, sequence_order)
    VALUES ($1, $2, $3)] *)
Definition insert_block_turn (now : timestamptz) (blockId turnId : uuid)
  (order : Z) (s : store) : result unit * store :=
  if negb (in_int4 order) then
    (Throw (DatabaseError numeric_value_out_of_range), s)
  else if negb (block_exists blockId s) then
    (Throw (DatabaseError (foreign_key_violation "block_turns_block_id_fkey")), s)
  else if negb (turn_exists turnId s) then
    (Throw (DatabaseError (foreign_key_violation "block_turns_turn_id_fkey")), s)
  else if existsb (fun r => Nat.eqb (BlockTurns.block_id r) blockId
                            && Nat.eqb (BlockTurns.turn_id r) turnId)
                  (block_turns s) then
    (Throw (DatabaseError (unique_violation "block_turns_pkey")), s)
  else
    (Ok tt,
     mk_store (blocks s) (block_meetings s) (block_attendees s) (turns s)
              (block_turns s ++ [BlockTurns.mk blockId turnId order now])
              (uuid_gen s) (block_attendees_id_seq s)).

(** [INSERT INTO blocks (name, description, block_type, ...) VALUES (...)
    RETURNING *] *)
Definition insert_block (now : timestamptz) (name : string)
  (description : string) (block_type : string) (created_by : string)
  (s : store) : result Blocks.row * store :=
  let bid := uuid_gen s in
  let s1 := mk_store (blocks s) (block_meetings s) (block_attendees s)
                     (turns s) (block_turns s) (S bid)
                     (block_attendees_id_seq s) in
  if (255 <? String.length name)%nat then
    (Throw (DatabaseError string_data_right_truncation), s1)
  else
    let b := Blocks.mk bid name (Some description) (Some block_type)
                       (Some created_by) now now in
    (Ok b,
     mk_store (blocks s ++ [b]) (block_meetings s) (block_attendees s)
              (turns s) (block_turns s) (S bid) (block_attendees_id_seq s)).

(** [INSERT INTO block_meetings (block_id, recall_bot_id, meeting_url,
    invited_by_user_id, status) VALUES ($1, $2, $3, $4, $5) RETURNING *] *)
Definition insert_meeting (now : timestamptz) (blockId : uuid)
  (bot : option string) (url : option string) (invited_by : option js_scalar)
  (status : option string) (s : store)
  : result BlockMeetings.row * store :=
  match bot, url with
  | None, _ => (Throw (DatabaseError (not_null_violation "recall_bot_id")), s)
  | _, None => (Throw (DatabaseError (not_null_violation "meeting_url")), s)
  | Some bot_id, Some meeting_url =>
      match bigint_param invited_by with
      | None => (Throw (DatabaseError invalid_text_representation), s)
      | Some user =>
          if existsb (fun m => Nat.eqb (BlockMeetings.block_id m) blockId)
                     (block_meetings s) then
            (Throw (DatabaseError (unique_violation "block_meetings_pkey")), s)
          else if existsb
                    (fun m => (BlockMeetings.recall_bot_id m =? bot_id)%string)
                    (block_meetings s) then
            (Throw (DatabaseError
                      (unique_violation "block_meetings_recall_bot_id_key")), s)
          else if negb (block_exists blockId s) then
            (Throw (DatabaseError
                      (foreign_key_violation "block_meetings_block_id_fkey")), s)
          else
            let m := BlockMeetings.mk blockId bot_id meeting_url status
                       user None now None now now in
            (Ok m,
             mk_store (blocks s) (block_meetings s ++ [m]) (block_attendees s)
                      (turns s) (block_turns s) (uuid_gen s)
                      (block_attendees_id_seq s))
      end
  end.

(** The [updateData] object of the webhook: [status] and [updated_at] are
    always set, [ended_at] and [full_transcript] only on completion. *)
Record update_data := mk_update {
  u_status : option string;
  u_updated_at : timestamptz;
  u_ended_at : option timestamptz;
  u_full_transcript : option json }.

(** The SET list built from [Object.keys(updateData)]. *)
Definition set_fields (u : update_data) (m : BlockMeetings.row)
  : BlockMeetings.row :=
  BlockMeetings.mk
    (BlockMeetings.block_id m)
    (BlockMeetings.recall_bot_id m)
    (BlockMeetings.meeting_url m)
    (u_status u)
    (BlockMeetings.invited_by_user_id m)
    (match u_full_transcript u with
     | Some doc => Some doc
     | None => BlockMeetings.full_transcript m
     end)
    (BlockMeetings.started_at m)
    (match u_ended_at u with
     | Some t => Some t
     | None => BlockMeetings.ended_at m
     end)
    (BlockMeetings.created_at m)
    (u_updated_at u).

(** Trigger [update_block_meetings_updated_at]: [NEW.updated_at = NOW()]. *)
Definition update_updated_at_column (now : timestamptz)
  (m : BlockMeetings.row) : BlockMeetings.row :=
  BlockMeetings.mk
    (BlockMeetings.block_id m) (BlockMeetings.recall_bot_id m)
    (BlockMeetings.meeting_url m) (BlockMeetings.status m)
    (BlockMeetings.invited_by_user_id m) (BlockMeetings.full_transcript m)
    (BlockMeetings.started_at m) (BlockMeetings.ended_at m)
    (BlockMeetings.created_at m) now.

(** [UPDATE block_meetings SET ... WHERE recall_bot_id = $1] *)
Definition update_meeting (now : timestamptz) (bot : string)
  (u : update_data) (s : store) : result unit * store :=
  (Ok tt,
   mk_store (blocks s)
            (map (fun m =>
                    if (BlockMeetings.recall_bot_id m =? bot)%string
                    then update_updated_at_column now (set_fields u m)
                    else m)
                 (block_meetings s))
            (block_attendees s) (turns s) (block_turns s) (uuid_gen s)
            (block_attendees_id_seq s)).

(** [DELETE FROM blocks WHERE block_id = $1], with the ON DELETE CASCADE of
    block_meetings, block_attendees and block_turns. *)
Definition delete_block (blockId : uuid) (s : store) : store :=
  mk_store
    (filter (fun r => negb (Nat.eqb (Blocks.block_id r) blockId)) (blocks s))
    (filter (fun r => negb (Nat.eqb (BlockMeetings.block_id r) blockId))
            (block_meetings s))
    (filter (fun r => negb (Nat.eqb (BlockAttendees.block_id r) blockId))
            (block_attendees s))
    (turns s)
    (filter (fun r => negb (Nat.eqb (BlockTurns.block_id r) blockId))
            (block_turns s))
    (uuid_gen s) (block_attendees_id_seq s).

(** ** Messages *)

(** A message of the transcription socket, after [JSON.parse]. *)
Module Transcript.
Record t := mk {
  bot_id : option string;
  speaker : option string;
  text : option string;
  timestamp : option string;
  sequence : option Z }.
End Transcript.

Inductive ws_data :=
| Malformed                             (* JSON.parse throws *)
| Json (transcript : Transcript.t).

(** The body of a POST /webhook. *)
Module Event.
Record t := mk {
  bot_id : option string;
  status : option string }.
End Event.

(** The body of a POST /api/create-bot. *)
Module CreateBot.
Record t := mk {
  meeting_url : option string;
  client_id : option js_scalar;
  meeting_name : option string }.
End CreateBot.

(** The answer of [POST https://us-west-2.recall.ai/api/v1/bot/]. *)
Inductive provisioning :=
| BotCreated (botData_id : option string)
| BotRefused (status : Z) (error : string)
| ProvisioningThrows.

(** The answer of [GET .../bot/<id>/transcript/]. *)
Inductive transcript_fetch :=
| TranscriptOk (fullTranscript : json)
| TranscriptNotOk (status : Z)
| TranscriptThrows.

(** What the HTTP client receives. *)
Inductive reply :=
| Send (code : Z) (body : string)
| JsonError (code : Z) (error : string) (details : option string)
| JsonCreated (bot : option string) (meeting_block : Blocks.row)
              (meeting : BlockMeetings.row).

Definition message (e : exn) : string :=
  match e with
  | DatabaseError (not_null_violation c) => "null value in column " ++ c
  | DatabaseError (unique_violation c) => "duplicate key value violates " ++ c
  | DatabaseError (foreign_key_violation c) => "violates foreign key " ++ c
  | DatabaseError string_data_right_truncation => "value too long"
  | DatabaseError invalid_text_representation => "invalid input syntax"
  | DatabaseError numeric_value_out_of_range => "integer out of range"
  | TypeError msg => msg
  | SyntaxError => "Unexpected token"
  | FetchError => "request failed"
  end.

(** Clock readings of one socket message. *)
Record message_env := mk_message_env {
  js_now : timestamptz;                 (* new Date().toISOString() *)
  now_attendee : timestamptz;           (* NOW() of the attendee INSERT *)
  now_turn : timestamptz;               (* NOW() of the turn INSERT *)
  now_link : timestamptz }.             (* NOW() of the block_turns INSERT *)

(** Clock readings and the Recall.ai answer of one webhook call. *)
Record webhook_env := mk_webhook_env {
  now_updated : timestamptz;            (* updated_at: new Date() *)
  now_ended : timestamptz;              (* ended_at: new Date() *)
  fetched : transcript_fetch;
  now_trigger : timestamptz }.          (* NOW() of the UPDATE *)

(** Clock readings and the Recall.ai answer of one create-bot call. *)
Record create_env := mk_create_env {
  recall : provisioning;
  now_name : timestamptz;               (* `Meeting ${new Date()...}` *)
  now_block : timestamptz;
  now_meeting : timestamptz }.

(** ** The PostgreSQL-backed server *)

Module Postgres.

(** [async function getOrCreateAttendee(blockId, speakerName)] *)
Definition getOrCreateAttendee (now : timestamptz) (blockId : uuid)
  (speakerName : option string) : M BlockAttendees.row :=
  attendeeResult <- query (select_attendees blockId speakerName) ;;
  match attendeeResult with
  | attendee :: _ => ret attendee
  | [] =>
      query (insert_attendee now blockId speakerName
               (template speakerName ++ " joined the meeting."))
  end.

(** [ws.on('message', async (data) => ...)] *)
Definition on_message (env : message_env) (data : ws_data) : M unit :=
  try_catch
    (match data with
     | Malformed => throw SyntaxError
     | Json transcript =>
         say (console_log "Received transcript:") ;;;
         meetingResult <-
           query (select_block_id_by_bot (Transcript.bot_id transcript)) ;;
         match meetingResult with
         | [] => say (console_error "No meeting found for bot:")
         | meeting_block_id :: _ =>
             attendee <-
               getOrCreateAttendee (now_attendee env) meeting_block_id
                                   (Transcript.speaker transcript) ;;
             turn <-
               query (insert_turn (now_turn env)
                        (Some (BlockAttendees.id attendee))
                        (Transcript.text transcript)
                        (Some "recall_bot")
                        (Some (Turns.mk_meta
                                 (or_else (Transcript.timestamp transcript)
                                          (js_now env))
                                 (Transcript.bot_id transcript)))
                        None None) ;;
             next_order <- query (select_next_order meeting_block_id) ;;
             query (insert_block_turn (now_link env) meeting_block_id
                      (Turns.turn_id turn) next_order)
         end
     end)
    (fun error => say (console_error "Error processing transcript:")).

(** The [updateData] object of [app.post('/webhook')], with its inner
    [try { fetch transcript } catch]. *)
Definition build_update (env : webhook_env) (event : Event.t)
  : M update_data :=
  let updateData := mk_update (Event.status event) (now_updated env)
                              None None in
  if strict_eq (Event.status event) "completed" then
    let updateData := mk_update (Event.status event) (now_updated env)
                                (Some (now_ended env)) None in
    try_catch
      (match fetched env with
       | TranscriptThrows => throw FetchError
       | TranscriptOk fullTranscript =>
           say (console_log "Stored complete transcript for bot:") ;;;
           ret (mk_update (u_status updateData) (u_updated_at updateData)
                          (u_ended_at updateData) (Some fullTranscript))
       | TranscriptNotOk _ =>
           say (console_error "Failed to fetch transcript:") ;;;
           ret updateData
       end)
      (fun error =>
         say (console_error "Error fetching transcript:") ;;;
         ret updateData)
  else ret updateData.

(** [app.post('/webhook', async (req, res) => ...)] *)
Definition webhook (env : webhook_env) (event : Event.t) : M reply :=
  try_catch
    (say (console_log "Webhook received:") ;;;
     (match Event.bot_id event with
      | Some bot_id =>
          if truthy (Event.bot_id event) then
            updateData <- build_update env event ;;
            query (update_meeting (now_trigger env) bot_id updateData)
          else ret tt
      | None => ret tt
      end) ;;;
     ret (Send 200 "OK"))
    (fun error =>
       say (console_error "Webhook error:") ;;;
       ret (Send 500 "Error processing webhook")).

(** [app.post('/api/create-bot', async (req, res) => ...)] *)
Definition create_bot (env : create_env) (body : CreateBot.t) : M reply :=
  try_catch
    (if negb (truthy (CreateBot.meeting_url body)) then
       ret (JsonError 400 "meeting_url is required" None)
     else
       say (console_log "Creating bot for meeting:") ;;;
       match recall env with
       | ProvisioningThrows => throw FetchError
       | BotRefused status error =>
           say (console_error "Recall.ai error:") ;;;
           ret (JsonError status "Failed to create bot" (Some error))
       | BotCreated botData_id =>
           say (console_log "Bot created:") ;;;
           say (console_log "Creating block for meeting:") ;;;
           block <-
             query (insert_block (now_block env)
                      (or_else (CreateBot.meeting_name body)
                               ("Meeting " ++ now_name env))
                      ("Meeting from " ++ template (CreateBot.meeting_url body))
                      "meeting" "recall_bot") ;;
           say (console_log "Block created:") ;;;
           meeting <-
             query (insert_meeting (now_meeting env) (Blocks.block_id block)
                      botData_id (CreateBot.meeting_url body)
                      (CreateBot.client_id body) (Some "joining")) ;;
           ret (JsonCreated botData_id block meeting)
       end)
    (fun error =>
       say (console_error "Error creating bot:") ;;;
       say (console_error "Stack trace:") ;;;
       ret (JsonError 500 "Internal server error" (Some (message error)))).

(** One request reaching the server, with what it reads from outside. *)
Inductive request :=
| Message (env : message_env) (data : ws_data)
| Webhook (env : webhook_env) (event : Event.t)
| CreateBot (env : create_env) (body : CreateBot.t).

Definition serve (r : request) (w : world) : world :=
  match r with
  | Message env data => snd (on_message env data w)
  | Webhook env event => snd (webhook env event w)
  | CreateBot env body => snd (create_bot env body w)
  end.

(** Requests handled one after the other. *)
Definition serve_all (rs : list request) (w : world) : world :=
  fold_left (fun w r => serve r w) rs w.

End Postgres.

(** ** The Supabase-backed server *)

Module Supabase.

(** [.single()]: the row when exactly one matches, otherwise no data. *)
Definition single {A} (rows : list A) : option A :=
  match rows with
  | [r] => Some r
  | _ => None
  end.

(** [const { data } = await ...]: the client reports an error instead of
    throwing, and [data] is null then. *)
Definition data_of {A} (op : store -> result A * store) : M (option A) :=
  fun w =>
    match op (db w) with
    | (Ok a, s') => (Ok (Some a), mk_world s' (console w))
    | (Throw _, s') => (Ok None, mk_world s' (console w))
    end.

(** [async function getOrCreateAttendee(blockId, speakerName)] *)
Definition getOrCreateAttendee (now : timestamptz) (blockId : uuid)
  (speakerName : option string) : M (option BlockAttendees.row) :=
  found <- query (select_attendees blockId speakerName) ;;
  match single found with
  | Some attendee => ret (Some attendee)
  | None =>
      data_of (insert_attendee now blockId speakerName
                 (template speakerName ++ " joined the meeting."))
  end.

(** [ws.on('message', async (data) => ...)] *)
Definition on_message (env : message_env) (data : ws_data) : M unit :=
  try_catch
    (match data with
     | Malformed => throw SyntaxError
     | Json transcript =>
         say (console_log "Received transcript:") ;;;
         found <-
           query (select_block_id_by_bot (Transcript.bot_id transcript)) ;;
         match single found with
         | None => say (console_error "No meeting found for bot:")
         | Some meeting_block_id =>
             attendee <-
               getOrCreateAttendee (now_attendee env) meeting_block_id
                                   (Transcript.speaker transcript) ;;
             match attendee with
             | None =>
                 throw (TypeError "Cannot read properties of null (reading 'id')")
             | Some attendee =>
                 turn <-
                   data_of (insert_turn (now_turn env)
                              (Some (BlockAttendees.id attendee))
                              (Transcript.text transcript)
                              (Some "recall_bot") None
                              (Some (or_else (Transcript.timestamp transcript)
                                             (js_now env)))
                              (Some 1)) ;;
                 match turn with
                 | None => say (console_error "Error creating turn:")
                 | Some turn =>
                     data_of (insert_block_turn (now_link env)
                                meeting_block_id (Turns.turn_id turn)
                                (or_zero (Transcript.sequence transcript))) ;;;
                     ret tt
                 end
             end
         end
     end)
    (fun error => say (console_error "Error processing transcript:")).

(** [app.post('/api/create-bot', async (req, res) => ...)] *)
Definition create_bot (env : create_env) (body : CreateBot.t) : M reply :=
  try_catch
    (if negb (truthy (CreateBot.meeting_url body)) then
       ret (JsonError 400 "meeting_url is required" None)
     else
       say (console_log "Creating bot for meeting:") ;;;
       match recall env with
       | ProvisioningThrows => throw FetchError
       | BotRefused status error =>
           say (console_error "Recall.ai error:") ;;;
           ret (JsonError status "Failed to create bot" (Some error))
       | BotCreated botData_id =>
           say (console_log "Bot created:") ;;;
           block <-
             data_of (insert_block (now_block env)
                        (or_else (CreateBot.meeting_name body)
                                 ("Meeting " ++ now_name env))
                        ("Meeting from "
                           ++ template (CreateBot.meeting_url body))
                        "meeting" "recall_bot") ;;
           match block with
           | None =>
               say (console_error "Block creation error:") ;;;
               ret (JsonError 500 "Failed to create meeting block" None)
           | Some block =>
               meeting <-
                 data_of (insert_meeting (now_meeting env)
                            (Blocks.block_id block) botData_id
                            (CreateBot.meeting_url body)
                            (CreateBot.client_id body) (Some "joining")) ;;
               match meeting with
               | None =>
                   say (console_error "Meeting creation error:") ;;;
                   (* Clean up block *)
                   query (fun s =>
                            (Ok tt, delete_block (Blocks.block_id block) s)) ;;;
                   ret (JsonError 500 "Failed to create meeting record" None)
               | Some meeting => ret (JsonCreated botData_id block meeting)
               end
           end
       end)
    (fun error =>
       say (console_error "Error creating bot:") ;;;
       ret (JsonError 500 "Internal server error" None)).

Inductive request :=
| Message (env : message_env) (data : ws_data)
| CreateBot (env : create_env) (body : CreateBot.t).

Definition serve (r : request) (w : world) : world :=
  match r with
  | Message env data => snd (on_message env data w)
  | CreateBot env body => snd (create_bot env body w)
  end.

Definition serve_all (rs : list request) (w : world) : world :=
  fold_left (fun w r => serve r w) rs w.

(** [.update(updateData).eq('recall_bot_id', event.bot_id)]: the request
    body is [JSON.stringify(updateData)], which leaves out a key whose value
    is [undefined]; a status that the event does not carry is therefore not
    written. *)
Definition patch_meeting (now : timestamptz) (bot : string)
  (u : update_data) (s : store) : result unit * store :=
  (Ok tt,
   mk_store (blocks s)
            (map (fun m =>
                    if (BlockMeetings.recall_bot_id m =? bot)%string
                    then update_updated_at_column now
                           (set_fields
                              (mk_update
                                 (match u_status u with
                                  | Some st => Some st
                                  | None => BlockMeetings.status m
                                  end)
                                 (u_updated_at u) (u_ended_at u)
                                 (u_full_transcript u))
                              m)
                    else m)
                 (block_meetings s))
            (block_attendees s) (turns s) (block_turns s) (uuid_gen s)
            (block_attendees_id_seq s)).

(** [app.post('/webhook', async (req, res) => ...)]; [updateData] is built
    by the same statements as on the PostgreSQL server. *)
Definition webhook (env : webhook_env) (event : Event.t) : M reply :=
  try_catch
    (say (console_log "Webhook received:") ;;;
     (match Event.bot_id event with
      | Some bot_id =>
          if truthy (Event.bot_id event) then
            updateData <- Postgres.build_update env event ;;
            data_of (patch_meeting (now_trigger env) bot_id updateData) ;;;
            ret tt
          else ret tt
      | None => ret tt
      end) ;;;
     ret (Send 200 "OK"))
    (fun error =>
       say (console_error "Webhook error:") ;;;
       ret (Send 500 "Error processing webhook")).

End Supabase.

(** ** Concurrent calls of getOrCreateAttendee

    Node runs one handler until its next [await]; two calls of
    [Postgres.getOrCreateAttendee] therefore interleave at their queries,
    and each query is atomic in the store. *)

Module Race.

(** Where a call stands between two awaits. *)
Inductive call :=
| AtSelect (blockId : uuid) (speakerName : option string)
| AtInsert (blockId : uuid) (speakerName : option string)
| Returned (attendee : BlockAttendees.row)
| Raised (e : exn).

(** Run the call up to its next await. *)
Definition advance (now : timestamptz) (c : call) (s : store)
  : call * store :=
  match c with
  | AtSelect blockId speakerName =>
      match select_attendees blockId speakerName s with
      | (Ok (attendee :: _), s') => (Returned attendee, s')
      | (Ok [], s') => (AtInsert blockId speakerName, s')
      | (Throw e, s') => (Raised e, s')
      end
  | AtInsert blockId speakerName =>
      match insert_attendee now blockId speakerName
              (template speakerName ++ " joined the meeting.") s with
      | (Ok attendee, s') => (Returned attendee, s')
      | (Throw e, s') => (Raised e, s')
      end
  | Returned _ | Raised _ => (c, s)
  end.

Inductive side := First | Second.

(** Two calls under a schedule: which call resumes next, and the clock
    reading it would use. *)
Fixpoint interleave (schedule : list (side * timestamptz))
  (c1 c2 : call) (s : store) : call * call * store :=
  match schedule with
  | [] => (c1, c2, s)
  | (First, now) :: rest =>
      let (c1', s') := advance now c1 s in interleave rest c1' c2 s'
  | (Second, now) :: rest =>
      let (c2', s') := advance now c2 s in interleave rest c1 c2' s'
  end.

Definition finished (c : call) : bool :=
  match c with
  | Returned _ | Raised _ => true
  | _ => false
  end.

End Race.

(** ** The data migration (migrations/migrate-data.js) *)

Module Migration.

(** A row of the hosted view [block_turn_details], as selected by
    migrateBlocks; a name or type that is NULL arrives as [null], the block
    id is the key of a block. *)
Record detail := mk_detail {
  block_id : uuid;
  block_name : option string;
  block_type : option string }.

(** An entry of [uniqueBlocks]. *)
Record staged := mk_staged {
  s_block_id : uuid;
  s_name : option string;
  s_block_type : string;
  s_description : string;
  s_created_at : timestamptz;
  s_updated_at : timestamptz }.

(** [`${v}`] of a value that may be [null]. *)
Definition spliced (v : option string) : string :=
  match v with
  | Some s => s
  | None => "null"
  end.

(** The body of [blockDetails.forEach]: a block id seen before is skipped,
    a new one is entered with two clock readings.  [uniqueBlocks] is kept in
    insertion order, the order [Object.values] returns for keys that are
    UUID texts. *)
Definition stage (clock : nat -> timestamptz)
  (acc : list staged * nat) (block : detail) : list staged * nat :=
  let (uniqueBlocks, reads) := acc in
  if existsb (fun e => Nat.eqb (s_block_id e) (block_id block)) uniqueBlocks
  then acc
  else
    ((uniqueBlocks
      ++ [mk_staged (block_id block) (block_name block)
            (or_else (block_type block) "session")
            ("Migrated block: " ++ spliced (block_name block))
            (clock reads) (clock (S reads))])%list,
     S (S reads)).

(** [Object.values(uniqueBlocks)] after the forEach. *)
Definition unique_blocks (clock : nat -> timestamptz)
  (blockDetails : list detail) : list staged :=
  fst (fold_left (stage clock) blockDetails ([], 0%nat)).

(** Assignment to a VARCHAR(n) column: a longer text is an error, unless
    only spaces are cut off. *)
Fixpoint blank (s : string) : bool :=
  match s with
  | EmptyString => true
  | String c s' => Ascii.eqb c " "%char && blank s'
  end.

Definition varchar (n : nat) (s : string) : option string :=
  if (String.length s <=? n)%nat then Some s
  else if blank (substring n (String.length s - n) s)
       then Some (substring 0 n s)
       else None.

(** What conversation.blocks makes of a name and a type: both are coerced
    to their columns, VARCHAR(255) and VARCHAR(50), and the name is then
    checked to be NOT NULL. *)
Definition constraints (name : option string) (block_type : string)
  : result (string * string) :=
  match option_map (varchar 255) name, varchar 50 block_type with
  | Some None, _ | _, None =>
      Throw (DatabaseError string_data_right_truncation)
  | None, Some _ => Throw (DatabaseError (not_null_violation "name"))
  | Some (Some name), Some block_type => Ok (name, block_type)
  end.

(** [INSERT INTO conversation.blocks (block_id, name, description,
    block_type, metadata, created_at, updated_at) VALUES (...)
    ON CONFLICT (block_id) DO UPDATE SET name, description, block_type,
    metadata, updated_at]; the update fires the updated_at trigger. *)
Definition upsert_block (now : timestamptz) (e : staged) (s : store)
  : result unit * store :=
  match constraints (s_name e) (s_block_type e) with
  | Throw error => (Throw error, s)
  | Ok (name, block_type) =>
      if block_exists (s_block_id e) s then
        (Ok tt,
         mk_store
           (map (fun b =>
                   if Nat.eqb (Blocks.block_id b) (s_block_id e)
                   then Blocks.mk (Blocks.block_id b) name
                                  (Some (s_description e))
                                  (Some block_type) None
                                  (Blocks.created_at b) now
                   else b)
                (blocks s))
           (block_meetings s) (block_attendees s) (turns s) (block_turns s)
           (uuid_gen s) (block_attendees_id_seq s))
      else
        (Ok tt,
         mk_store
           (blocks s
            ++ [Blocks.mk (s_block_id e) name (Some (s_description e))
                          (Some block_type) None
                          (s_created_at e) (s_updated_at e)])
           (block_meetings s) (block_attendees s) (turns s) (block_turns s)
           (uuid_gen s) (block_attendees_id_seq s))
  end.

(** [`${n}`] of a count. *)
Definition decimal (n : nat) : string :=
  NilZero.string_of_uint (Nat.to_uint n).

(** [for (const block of blocks) { await renderDB.query(...) }]; [now i] is
    the database time of the i-th statement. *)
Fixpoint import_blocks (now : nat -> timestamptz) (i : nat)
  (blocks : list staged) : M unit :=
  match blocks with
  | [] => ret tt
  | block :: rest =>
      query (upsert_block (now i) block) ;;;
      import_blocks now (S i) rest
  end.

(** [async function migrateBlocks()]; [blockDetails] is what the hosted
    database answered, None for an error or no data.  The console lines are
    recorded without their leading pictograph, and [console.error] by its
    label as in the servers. *)
Definition migrateBlocks (clock now : nat -> timestamptz)
  (blockDetails : option (list detail)) : M unit :=
  say (console_log "Migrating blocks...") ;;;
  try_catch
    (match blockDetails with
     | None => say (console_log "No blocks found")
     | Some blockDetails =>
         let blocks := unique_blocks clock blockDetails in
         import_blocks now 0 blocks ;;;
         say (console_log ("Migrated " ++ decimal (List.length blocks)
                           ++ " blocks"))
     end)
    (fun error => say (console_error "Error migrating blocks:")).

(** The third statement of resetSequences:
    [SELECT setval('conversation.block_attendees_id_seq',
    (SELECT COALESCE(MAX(id), 1) FROM conversation.block_attendees))].
    A BIGSERIAL sequence starts at 1: setval rejects a smaller value. *)
Definition reset_attendees_sequence (s : store) : result unit * store :=
  let value := match sql_max (map BlockAttendees.id (block_attendees s)) with
               | Some m => m
               | None => 1
               end in
  if value <? 1 then
    (Throw (DatabaseError numeric_value_out_of_range), s)
  else
    (Ok tt,
     mk_store (blocks s) (block_meetings s) (block_attendees s) (turns s)
              (block_turns s) (uuid_gen s) value).

(** [async function resetSequences()].  The three setval statements are
    sent as one query; [earlier] is the error of the first two, on tables
    outside this store, when one of them is rejected. *)
Definition resetSequences (earlier : option pg_error) : M unit :=
  say (console_log "Resetting sequences...") ;;;
  try_catch
    (query (fun s =>
              match earlier with
              | Some e => (Throw (DatabaseError e), s)
              | None => reset_attendees_sequence s
              end) ;;;
     say (console_log "Sequences reset"))
    (fun error => say (console_error "Error resetting sequences:")).

(** The store takes the entry. *)
Definition acceptable (e : staged) : bool :=
  match constraints (s_name e) (s_block_type e) with
  | Ok _ => true
  | Throw _ => false
  end.

(** The store takes the entry made from this source row. *)
Definition accepted (block : detail) : bool :=
  match constraints (block_name block)
                    (or_else (block_type block) "session") with
  | Ok _ => true
  | Throw _ => false
  end.

(** The source row has a name, and its name and type fit their columns as
    they are. *)
Definition importable (block : detail) : bool :=
  match block_name block with
  | Some name =>
      ((String.length name <=? 255)
       && (String.length (or_else (block_type block) "session") <=? 50))%nat
  | None => false
  end.

(** The stored block [b] has the columns the upsert writes for [e]. *)
Definition imported (e : staged) (b : Blocks.row) : Prop :=
  exists name block_type,
    constraints (s_name e) (s_block_type e) = Ok (name, block_type)
    /\ Blocks.name b = name
    /\ Blocks.description b = Some (s_description e)
    /\ Blocks.block_type b = Some block_type
    /\ Blocks.created_by b = None.

(** Two entries that differ at most in their clock readings. *)
Definition same_entry (e e' : staged) : Prop :=
  s_block_id e' = s_block_id e /\ s_name e' = s_name e
  /\ s_block_type e' = s_block_type e
  /\ s_description e' = s_description e.

End Migration.

(** ** Properties of stored states *)

(** The unique index [idx_block_attendees_unique] holds in [s]. *)
Definition attendees_unique (s : store) : Prop :=
  forall blockId speakerName,
    (length (attendees_named blockId (Some speakerName) s) <= 1)%nat.

(** A block without a meeting record. *)
Definition orphan (b : Blocks.row) (s : store) : bool :=
  negb (existsb (fun m => Nat.eqb (BlockMeetings.block_id m)
                                  (Blocks.block_id b))
                (block_meetings s)).

(** The turns placed in block_turns carry keys the generator has already
    handed out, and their positions are INTEGERs. *)
Definition placements_sound (s : store) : Prop :=
  Forall (fun r => (BlockTurns.turn_id r < uuid_gen s)%nat
                   /\ in_int4 (BlockTurns.sequence_order r) = true)
         (block_turns s).

(** [s'] differs from [s] at most in block_attendees and its sequence. *)
Definition same_but_attendees (s s' : store) : Prop :=
  blocks s' = blocks s /\ block_meetings s' = block_meetings s
  /\ turns s' = turns s /\ block_turns s' = block_turns s
  /\ uuid_gen s' = uuid_gen s.

(** [s'] differs from [s] at most in blocks. *)
Definition same_but_blocks (s s' : store) : Prop :=
  block_meetings s' = block_meetings s
  /\ block_attendees s' = block_attendees s
  /\ turns s' = turns s /\ block_turns s' = block_turns s
  /\ uuid_gen s' = uuid_gen s
  /\ block_attendees_id_seq s' = block_attendees_id_seq s.

(** Two block rows that differ at most in [updated_at]. *)
Definition same_but_updated_at (b b' : Blocks.row) : Prop :=
  Blocks.block_id b' = Blocks.block_id b
  /\ Blocks.name b' = Blocks.name b
  /\ Blocks.description b' = Blocks.description b
  /\ Blocks.block_type b' = Blocks.block_type b
  /\ Blocks.created_by b' = Blocks.created_by b
  /\ Blocks.created_at b' = Blocks.created_at b.

(** The [updateData] object a webhook call ends up with. *)
Definition lifecycle_update (env : webhook_env) (event : Event.t)
  : update_data :=
  if strict_eq (Event.status event) "completed" then
    mk_update (Event.status event) (now_updated env) (Some (now_ended env))
              (match fetched env with
               | TranscriptOk fullTranscript => Some fullTranscript
               | _ => None
               end)
  else mk_update (Event.status event) (now_updated env) None None.

(** ** Sample data *)

Module Sample.

Definition t0 : timestamptz := "2025-01-15T10:00:00.000Z".
Definition t1 : timestamptz := "2025-01-15T10:00:05.000Z".
Definition t2 : timestamptz := "2025-01-15T10:30:00.000Z".

Definition clock (t : timestamptz) : message_env :=
  mk_message_env t t t t.

Definition standup_request : CreateBot.t :=
  CreateBot.mk (Some "https://call/abc") (Some (Num 7)) (Some "Standup").

Definition provisioned (bot : string) : create_env :=
  mk_create_env (BotCreated (Some bot)) t0 t0 t0.

Definition fresh : world := mk_world empty_store [].

(** The database after one successful create-bot on the PostgreSQL
    server: block 0 with the meeting record of bot-1. *)
Definition standup : world :=
  Postgres.serve (Postgres.CreateBot (provisioned "bot-1") standup_request)
                 fresh.

(** The same request served by the Supabase server. *)
Definition hosted : world :=
  Supabase.serve (Supabase.CreateBot (provisioned "bot-1") standup_request)
                 fresh.

Definition says (text : option string) (hint : option Z) : ws_data :=
  Json (Transcript.mk (Some "bot-1") (Some "Dana") text None hint).

Definition dana : BlockAttendees.row :=
  BlockAttendees.mk 1 0%nat "Dana" None (Some "Dana joined the meeting.")
                    (Some 0) t1 t1.

End Sample.

(** ** Constraints of the schema, as properties of a store *)

(** [recall_bot_id TEXT UNIQUE] and [block_id uuid PRIMARY KEY] of
    block_meetings. *)
Definition meetings_unique (s : store) : Prop :=
  NoDup (map BlockMeetings.recall_bot_id (block_meetings s))
  /\ NoDup (map BlockMeetings.block_id (block_meetings s)).

(** The REFERENCES clauses: meeting records, attendees and placements name
    stored blocks, and placements name stored turns. *)
Definition references_hold (s : store) : Prop :=
  Forall (fun m => block_exists (BlockMeetings.block_id m) s = true)
         (block_meetings s)
  /\ Forall (fun a => block_exists (BlockAttendees.block_id a) s = true)
            (block_attendees s)
  /\ Forall (fun r => block_exists (BlockTurns.block_id r) s = true
                      /\ turn_exists (BlockTurns.turn_id r) s = true)
            (block_turns s).

(** [s] with its meeting records replaced. *)
Definition with_meetings (ms : list BlockMeetings.row) (s : store) : store :=
  mk_store (blocks s) ms (block_attendees s) (turns s) (block_turns s)
           (uuid_gen s) (block_attendees_id_seq s).

(** A handler keeps the property [I] of the store. *)
Definition keeps (I : store -> Prop) {A} (m : M A) : Prop :=
  forall w, I (db w) -> I (db (snd (m w))).

(** Every statement that writes keeps the property [I], whatever its
    parameters and whether it succeeds or is rejected. *)
Record kept_by_statements (I : store -> Prop) : Prop := {
  kept_insert_attendee :
    forall now b n story s, I s -> I (snd (insert_attendee now b n story s));
  kept_insert_turn :
    forall now p c src md ts cl s,
      I s -> I (snd (insert_turn now p c src md ts cl s));
  kept_insert_block_turn :
    forall now b t order s, I s -> I (snd (insert_block_turn now b t order s));
  kept_insert_block :
    forall now name description block_type created_by s,
      I s -> I (snd (insert_block now name description block_type created_by s));
  kept_insert_meeting :
    forall now b bot url invited status s,
      I s -> I (snd (insert_meeting now b bot url invited status s));
  kept_update_meeting :
    forall now bot u s, I s -> I (snd (update_meeting now bot u s));
  kept_patch_meeting :
    forall now bot u s, I s -> I (snd (Supabase.patch_meeting now bot u s));
  kept_delete_block :
    forall b s, I s -> I (delete_block b s) }.

(** A computation that neither reads nor writes block_meetings, and does
    not read the console: run on a store with other meeting records it
    returns the same value and makes the same changes. *)
Definition ignores_meetings {A} (m : M A) : Prop :=
  forall ms c w,
    fst (m (mk_world (with_meetings ms (db w)) c)) = fst (m w)
    /\ db (snd (m (mk_world (with_meetings ms (db w)) c)))
       = with_meetings ms (db (snd (m w))).

(** The statements of [Postgres.on_message] that follow the lookup of the
    meeting: what the handler does once the block of the bot is known. *)
Definition pg_placing (env : message_env) (t : Transcript.t) (b : uuid)
  : M unit :=
  attendee <-
    Postgres.getOrCreateAttendee (now_attendee env) b (Transcript.speaker t) ;;
  turn <-
    query (insert_turn (now_turn env) (Some (BlockAttendees.id attendee))
             (Transcript.text t) (Some "recall_bot")
             (Some (Turns.mk_meta
                      (or_else (Transcript.timestamp t) (js_now env))
                      (Transcript.bot_id t)))
             None None) ;;
  next_order <- query (select_next_order b) ;;
  query (insert_block_turn (now_link env) b (Turns.turn_id turn) next_order).

(** The constraints of the schema that the handlers rely on. *)
Definition schema_holds (s : store) : Prop :=
  meetings_unique s /\ attendees_unique s /\ references_hold s.

(** ** Proof steps *)

(** Run the next [say] of the execution [E]. *)
Ltac said E := unfold bind at 1 in E; cbn [say] in E.


(** * Theorems *)

(** ** The maximum read and the next position *)

Lemma sql_max_none (l : list Z) : sql_max l = None <-> l = [].
Proof.
  destruct l as [|x l]; cbn; [tauto|].
  destruct (sql_max l); split; discriminate.
Qed.

Lemma sql_max_bound (l : list Z) (m : Z) :
  sql_max l = Some m -> Forall (fun x => x <= m) l.
Proof.
  revert m. induction l as [|x l IH]; intros m H; cbn in H; [constructor|].
  destruct (sql_max l) as [m'|] eqn:E.
  - injection H as <-. constructor; [lia|].
    eapply Forall_impl; [|apply IH; reflexivity].
    cbn; intros; lia.
  - injection H as <-. apply sql_max_none in E. subst l.
    constructor; [lia|constructor].
Qed.

Lemma sql_max_member (l : list Z) (m : Z) : sql_max l = Some m -> In m l.
Proof.
  revert m. induction l as [|x l IH]; intros m H; cbn in H; [discriminate|].
  destruct (sql_max l) as [m'|] eqn:E; injection H as <-.
  - destruct (Z.max_spec x m') as [[_ ->]|[_ ->]]; [right; auto|left; auto].
  - left; reflexivity.
Qed.

Lemma next_above_all (l : list Z) :
  Forall (fun x => x < coalesce0 (sql_max l) + 1) l.
Proof.
  destruct (sql_max l) as [m|] eqn:E; cbn.
  - eapply Forall_impl; [|apply (sql_max_bound _ _ E)]. cbn; intros; lia.
  - apply sql_max_none in E. subst. constructor.
Qed.



Lemma positions_snoc (b : uuid) (s : store) (r : BlockTurns.row) (rows : list BlockTurns.row) :
  block_turns s = (rows ++ [r])%list ->
  positions b s =
  (map BlockTurns.sequence_order
       (filter (fun r => Nat.eqb (BlockTurns.block_id r) b) rows)
   ++ (if Nat.eqb (BlockTurns.block_id r) b
       then [BlockTurns.sequence_order r] else []))%list.
Proof.
  intros H. unfold positions. rewrite H, filter_app, map_app. cbn.
  destruct (Nat.eqb _ _); reflexivity.
Qed.

(** ** What each statement leaves alone *)

Lemma insert_attendee_frame now b n story s :
  same_but_attendees s (snd (insert_attendee now b n story s)).
Proof.
  unfold insert_attendee, same_but_attendees.
  destruct n as [n|]; cbn; [|tauto].
  destruct (negb (block_exists b s)); cbn; [tauto|].
  destruct (filter _ _); cbn; tauto.
Qed.

Lemma pg_getOrCreateAttendee_frame now b n w :
  same_but_attendees (db w) (db (snd (Postgres.getOrCreateAttendee now b n w)))
  /\ console (snd (Postgres.getOrCreateAttendee now b n w)) = console w.
Proof.
  unfold Postgres.getOrCreateAttendee, bind, query, select_attendees, ret.
  cbn. destruct (attendees_named b n (db w)) as [|a rest]; cbn.
  - pose proof (insert_attendee_frame now b n
                  (template n ++ " joined the meeting.") (db w)) as F.
    destruct (insert_attendee _ _ _ _ _) as [r s']; cbn in *. tauto.
  - unfold same_but_attendees; tauto.
Qed.

Lemma insert_turn_frame now p c src md ts cl s :
  blocks (snd (insert_turn now p c src md ts cl s)) = blocks s
  /\ block_meetings (snd (insert_turn now p c src md ts cl s)) = block_meetings s
  /\ block_attendees (snd (insert_turn now p c src md ts cl s)) = block_attendees s
  /\ block_turns (snd (insert_turn now p c src md ts cl s)) = block_turns s.
Proof. unfold insert_turn. destruct c; cbn; tauto. Qed.

Lemma insert_block_turn_cases now b tid order s :
  insert_block_turn now b tid order s
  = (Ok tt,
     mk_store (blocks s) (block_meetings s) (block_attendees s) (turns s)
              (block_turns s ++ [BlockTurns.mk b tid order now])
              (uuid_gen s) (block_attendees_id_seq s))
  \/ exists e, insert_block_turn now b tid order s = (Throw e, s).
Proof.
  unfold insert_block_turn.
  repeat match goal with
         | |- context [if ?c then _ else _] => destruct c; [right; eauto|]
         end.
  left; reflexivity.
Qed.


(** ** The webhook *)

Lemma build_update_runs env event w :
  exists logs,
    Postgres.build_update env event w
    = (Ok (lifecycle_update env event),
       mk_world (db w) (console w ++ logs)).
Proof.
  unfold Postgres.build_update, lifecycle_update.
  destruct (strict_eq (Event.status event) "completed").
  - unfold try_catch. destruct (fetched env); cbn.
    + eexists; reflexivity.
    + eexists; reflexivity.
    + eexists; reflexivity.
  - exists []. unfold ret. rewrite app_nil_r. destruct w; reflexivity.
Qed.

(** The webhook logs the event and always answers 200 OK; with a truthy bot
    id its only store operation is the UPDATE. *)
Lemma pg_webhook_runs env event w :
  exists logs,
    Postgres.webhook env event w
    = (Ok (Send 200 "OK"),
       mk_world
         (match Event.bot_id event with
          | Some bot_id =>
              if truthy (Event.bot_id event)
              then snd (update_meeting (now_trigger env) bot_id
                          (lifecycle_update env event) (db w))
              else db w
          | None => db w
          end)
         (console w ++ console_log "Webhook received:" :: logs)).
Proof.
  unfold Postgres.webhook, try_catch.
  unfold bind at 1. cbn [say].
  destruct (Event.bot_id event) as [bot|]; cbn [truthy].
  - destruct (negb (bot =? "")%string).
    + unfold bind.
      destruct (build_update_runs env event
                  (mk_world (db w) (console w ++ [console_log "Webhook received:"])))
        as [logs ->].
      cbn. rewrite <- app_assoc. exists logs; reflexivity.
    + cbn. exists []; reflexivity.
  - cbn. exists []; reflexivity.
Qed.

(** ** create-bot *)

Lemma insert_block_frame now name description block_type created_by s :
  block_meetings (snd (insert_block now name description block_type created_by s))
  = block_meetings s
  /\ block_attendees (snd (insert_block now name description block_type created_by s))
     = block_attendees s
  /\ turns (snd (insert_block now name description block_type created_by s))
     = turns s
  /\ block_turns (snd (insert_block now name description block_type created_by s))
     = block_turns s.
Proof. unfold insert_block. destruct (_ <? _)%nat; cbn; tauto. Qed.

Lemma insert_meeting_frame now b bot url invited status s :
  blocks (snd (insert_meeting now b bot url invited status s)) = blocks s
  /\ block_attendees (snd (insert_meeting now b bot url invited status s))
     = block_attendees s
  /\ turns (snd (insert_meeting now b bot url invited status s)) = turns s
  /\ block_turns (snd (insert_meeting now b bot url invited status s))
     = block_turns s.
Proof.
  unfold insert_meeting. destruct bot, url; cbn; try tauto.
  destruct (bigint_param invited); cbn; [|tauto].
  repeat match goal with
         | |- context [if ?c then _ else _] => destruct c; cbn; [tauto|]
         end.
  tauto.
Qed.


Lemma pg_webhook_frame env event w :
  blocks (db (snd (Postgres.webhook env event w))) = blocks (db w)
  /\ block_attendees (db (snd (Postgres.webhook env event w)))
     = block_attendees (db w)
  /\ turns (db (snd (Postgres.webhook env event w))) = turns (db w)
  /\ block_turns (db (snd (Postgres.webhook env event w)))
     = block_turns (db w).
Proof.
  destruct (pg_webhook_runs env event w) as [logs ->]. cbn [snd db].
  destruct (Event.bot_id event); [|tauto].
  destruct (truthy _); cbn; tauto.
Qed.

(** ** Positions under the PostgreSQL server *)


(** ** Speaker registry *)

Lemma world_eta (w : world) : mk_world (db w) (console w) = w.
Proof. destruct w; reflexivity. Qed.

(** A label that is already registered resolves to its first row and writes
    nothing. *)
Lemma pg_getOrCreateAttendee_found now b n w a rest :
  attendees_named b n (db w) = a :: rest ->
  Postgres.getOrCreateAttendee now b n w = (Ok a, w).
Proof.
  intros H. unfold Postgres.getOrCreateAttendee, bind, query, select_attendees.
  cbn. rewrite H. unfold ret. now rewrite world_eta.
Qed.

(** A label seen for the first time in a stored block is inserted. *)
Lemma pg_getOrCreateAttendee_created now b n w :
  block_exists b (db w) = true ->
  attendees_named b (Some n) (db w) = [] ->
  let a := BlockAttendees.mk (block_attendees_id_seq (db w) + 1) b n None
             (Some (n ++ " joined the meeting.")) (Some 0) now now in
  Postgres.getOrCreateAttendee now b (Some n) w
  = (Ok a,
     mk_world
       (mk_store (blocks (db w)) (block_meetings (db w))
                 (block_attendees (db w) ++ [a]) (turns (db w))
                 (block_turns (db w)) (uuid_gen (db w))
                 (block_attendees_id_seq (db w) + 1))
       (console w)).
Proof.
  intros Hb Hn a.
  unfold Postgres.getOrCreateAttendee, bind, query, select_attendees.
  cbn [db console]. rewrite Hn. unfold insert_attendee. cbn [db console].
  rewrite Hb, Hn. reflexivity.
Qed.

Lemma attendees_named_snoc b n s a s' :
  block_attendees s' = (block_attendees s ++ [a])%list ->
  attendees_named b (Some n) s'
  = (attendees_named b (Some n) s
     ++ (if Nat.eqb (BlockAttendees.block_id a) b
            && (BlockAttendees.name a =? n)%string
         then [a] else []))%list.
Proof.
  intros H. unfold attendees_named. rewrite H, filter_app. cbn.
  destruct (_ && _); reflexivity.
Qed.

Lemma pg_getOrCreateAttendee_ok now b n w :
  block_exists b (db w) = true ->
  exists a w1, Postgres.getOrCreateAttendee now b (Some n) w = (Ok a, w1).
Proof.
  intros Hb. destruct (attendees_named b (Some n) (db w)) as [|a rest] eqn:E.
  - eexists _, _. now apply pg_getOrCreateAttendee_created.
  - exists a, w. eapply pg_getOrCreateAttendee_found; eassumption.
Qed.

(** C7. For every stored session (block) and speaker label, the first
    resolution returns an attendee and a second resolution returns the same
    attendee and changes nothing; when the label was not yet registered the
    first resolution appends exactly that attendee, with the narrative
    "<label> joined the meeting.", zero speaking time and no linked user. *)
Theorem resolve_attendee_twice now1 now2 b n w :
  block_exists b (db w) = true ->
  exists a w1,
    Postgres.getOrCreateAttendee now1 b (Some n) w = (Ok a, w1)
    /\ Postgres.getOrCreateAttendee now2 b (Some n) w1 = (Ok a, w1)
    /\ (attendees_named b (Some n) (db w) = [] ->
        block_attendees (db w1) = (block_attendees (db w) ++ [a])%list
        /\ BlockAttendees.block_id a = b
        /\ BlockAttendees.name a = n
        /\ BlockAttendees.story a = Some (n ++ " joined the meeting.")
        /\ BlockAttendees.speaking_time_seconds a = Some 0
        /\ BlockAttendees.user_id a = None)
    /\ (attendees_named b (Some n) (db w) <> [] -> w1 = w).
Proof.
  intros Hb. destruct (attendees_named b (Some n) (db w)) as [|a rest] eqn:E.
  - eexists _, _. split; [now apply pg_getOrCreateAttendee_created|].
    split; [|split; [intros _; cbn; repeat split|congruence]].
    eapply pg_getOrCreateAttendee_found. cbn [db].
    erewrite attendees_named_snoc by reflexivity.
    rewrite E. cbn. now rewrite Nat.eqb_refl, String.eqb_refl.
  - exists a, w. split; [eapply pg_getOrCreateAttendee_found; eassumption|].
    split; [eapply pg_getOrCreateAttendee_found; eassumption|].
    split; [discriminate|reflexivity].
Qed.

Lemma resolve_attendee_twice_witness :
  block_exists 0%nat (db Sample.standup) = true
  /\ exists a w1,
       Postgres.getOrCreateAttendee Sample.t1 0%nat (Some "Dana") Sample.standup
       = (Ok a, w1)
       /\ Postgres.getOrCreateAttendee Sample.t2 0%nat (Some "Dana") w1
          = (Ok a, w1)
       /\ BlockAttendees.story a = Some "Dana joined the meeting.".
Proof.
  split; [reflexivity|].
  destruct (resolve_attendee_twice Sample.t1 Sample.t2 0%nat "Dana"
              Sample.standup eq_refl) as (a & w1 & H1 & H2 & Hnew & _).
  exists a, w1. repeat split; try assumption.
  apply Hnew. reflexivity.
Defined.

(** ** Appending a turn on the PostgreSQL server *)

Lemma positions_in_int4 b s :
  placements_sound s -> Forall (fun z => in_int4 z = true) (positions b s).
Proof.
  unfold placements_sound, positions. intros H.
  induction H as [|r rows [_ Hr] _ IH]; cbn; [constructor|].
  destruct (Nat.eqb _ _); cbn; [constructor|]; assumption.
Qed.

Lemma next_in_int4 b s :
  placements_sound s ->
  coalesce0 (sql_max (positions b s)) < int4_max ->
  in_int4 (coalesce0 (sql_max (positions b s)) + 1) = true.
Proof.
  intros Hs Hlt. pose proof (positions_in_int4 b s Hs) as Hall.
  unfold in_int4 in *. apply andb_true_iff.
  destruct (sql_max (positions b s)) as [m|] eqn:E; cbn in *.
  - apply sql_max_member in E. rewrite Forall_forall in Hall.
    specialize (Hall _ E). apply andb_true_iff in Hall.
    unfold int4_min, int4_max in *. lia.
  - unfold int4_min, int4_max. lia.
Qed.

Lemma placement_key_free b s :
  placements_sound s ->
  existsb (fun r => Nat.eqb (BlockTurns.block_id r) b
                    && Nat.eqb (BlockTurns.turn_id r) (uuid_gen s))
          (block_turns s) = false.
Proof.
  unfold placements_sound. intros H.
  induction H as [|r rows [Hr _] _ IH]; cbn; [reflexivity|].
  rewrite IH, orb_false_r. apply andb_false_iff. right.
  apply Nat.eqb_neq. lia.
Qed.

(** An event for a stored session, with a speaker and a text, is appended:
    one turn row, and one placement at one more than the maximum found. *)
Lemma pg_on_message_appends env t w b rest n c :
  map BlockMeetings.block_id
      (select_meeting_by_bot (Transcript.bot_id t) (db w)) = b :: rest ->
  Transcript.speaker t = Some n ->
  Transcript.text t = Some c ->
  block_exists b (db w) = true ->
  placements_sound (db w) ->
  coalesce0 (sql_max (positions b (db w))) < int4_max ->
  exists a w1,
    Postgres.getOrCreateAttendee (now_attendee env) b (Some n)
      (mk_world (db w) (console w ++ [console_log "Received transcript:"]))
    = (Ok a, w1)
    /\ Postgres.on_message env (Json t) w
       = (Ok tt,
          mk_world
            (mk_store
               (blocks (db w)) (block_meetings (db w)) (block_attendees (db w1))
               (turns (db w)
                ++ [Turns.mk (uuid_gen (db w)) (Some (BlockAttendees.id a)) c
                      (Some "recall_bot")
                      (Some (Turns.mk_meta
                               (or_else (Transcript.timestamp t) (js_now env))
                               (Transcript.bot_id t)))
                      (now_turn env) None (now_turn env)])
               (block_turns (db w)
                ++ [BlockTurns.mk b (uuid_gen (db w))
                      (coalesce0 (sql_max (positions b (db w))) + 1)
                      (now_link env)])
               (S (uuid_gen (db w))) (block_attendees_id_seq (db w1)))
            (console w1)).
Proof.
  intros Hm Hs Hc Hb Hp Ho.
  set (w0 := mk_world (db w) (console w ++ [console_log "Received transcript:"])).
  destruct (pg_getOrCreateAttendee_ok (now_attendee env) b n w0 Hb)
    as (a & w1 & Ha).
  exists a, w1. split; [exact Ha|].
  pose proof (pg_getOrCreateAttendee_frame (now_attendee env) b (Some n) w0)
    as [(Fb & Fm & Ft & Fbt & Fu) _].
  rewrite Ha in *. cbn [snd db] in *. subst w0. cbn [db] in *.
  unfold Postgres.on_message, try_catch.
  unfold bind at 1. cbn [say].
  unfold bind at 1. unfold query at 1, select_block_id_by_bot. cbn [db console].
  rewrite Hm. unfold bind at 1. rewrite Hs, Ha.
  unfold bind at 1. unfold query at 1, insert_turn. rewrite Hc.
  unfold bind at 1. unfold query at 1, select_next_order. cbn [db console].
  assert (Hpos : forall s', block_turns s' = block_turns (db w1) ->
                            positions b s' = positions b (db w)).
  { intros s' E. unfold positions. congruence. }
  rewrite Hpos by reflexivity.
  replace (_ <=? int4_max) with true by (symmetry; apply Z.leb_le; lia).
  unfold query, insert_block_turn. cbn [db console].
  rewrite (next_in_int4 b (db w) Hp Ho). cbn [negb].
  unfold block_exists in *. cbn [blocks]. rewrite Fb, Hb. cbn [negb].
  unfold turn_exists. cbn [turns]. rewrite existsb_app. cbn [existsb Turns.turn_id].
  rewrite Nat.eqb_refl, orb_true_r. cbn [orb negb].
  cbn [block_turns uuid_gen]. rewrite Fbt, Fu.
  rewrite (placement_key_free b (db w) Hp).
  cbn. rewrite Fm, Ft. reflexivity.
Qed.

(** C2 (as amended). On the PostgreSQL server, an event for a stored session
    that carries a speaker label and a text, while the session's maximum
    position is below the INTEGER limit, is placed at one more than the
    current maximum position of that session, and at 1 when the session has
    no placement yet; exactly one placement is appended. *)
Theorem pg_next_position env t w b rest n c :
  map BlockMeetings.block_id
      (select_meeting_by_bot (Transcript.bot_id t) (db w)) = b :: rest ->
  Transcript.speaker t = Some n ->
  Transcript.text t = Some c ->
  block_exists b (db w) = true ->
  placements_sound (db w) ->
  coalesce0 (sql_max (positions b (db w))) < int4_max ->
  let next := match sql_max (positions b (db w)) with
              | Some m => m + 1
              | None => 1
              end in
  let s' := db (snd (Postgres.on_message env (Json t) w)) in
  (exists tid,
     block_turns s'
     = (block_turns (db w) ++ [BlockTurns.mk b tid next (now_link env)])%list)
  /\ positions b s' = (positions b (db w) ++ [next])%list.
Proof.
  intros Hm Hs Hc Hb Hp Ho next s'.
  destruct (pg_on_message_appends env t w b rest n c Hm Hs Hc Hb Hp Ho)
    as (a & w1 & _ & E).
  assert (Hn : next = coalesce0 (sql_max (positions b (db w))) + 1).
  { subst next. destruct (sql_max _); reflexivity. }
  subst s'. rewrite E, Hn. cbn [snd db block_turns]. split.
  - eexists; reflexivity.
  - erewrite positions_snoc by reflexivity. cbn.
    now rewrite Nat.eqb_refl.
Qed.

Lemma pg_next_position_witness :
  positions 0%nat
    (db (snd (Postgres.on_message (Sample.clock Sample.t1)
                (Sample.says (Some "Let's start") None) Sample.standup)))
  = [1].
Proof.
  refine (proj2 (pg_next_position (Sample.clock Sample.t1)
                   (Transcript.mk (Some "bot-1") (Some "Dana")
                                  (Some "Let's start") None None)
                   Sample.standup 0%nat [] "Dana" "Let's start"
                   eq_refl eq_refl eq_refl eq_refl _ _)).
  - constructor.
  - vm_compute. reflexivity.
Defined.

(** C2, counterexample. On the Supabase server a second event without a
    sequence hint is placed at 0, although the session's maximum is already
    0. *)
Lemma supabase_position_is_the_hint :
  let w1 := Supabase.serve
              (Supabase.Message (Sample.clock Sample.t1)
                                (Sample.says (Some "Let's start") None))
              Sample.hosted in
  let w2 := Supabase.serve
              (Supabase.Message (Sample.clock Sample.t2)
                                (Sample.says (Some "Agenda first") None))
              w1 in
  sql_max (positions 0%nat (db w1)) = Some 0
  /\ positions 0%nat (db w2) = (positions 0%nat (db w1) ++ [0])%list
  /\ positions 0%nat (db w2) <> (positions 0%nat (db w1) ++ [0 + 1])%list.
Proof. vm_compute. repeat split; discriminate. Qed.

Lemma sql_max_snoc (l : list Z) (y : Z) :
  Forall (fun x => x < y) l -> sql_max (l ++ [y]) = Some y.
Proof.
  induction 1 as [|x l Hx _ IH]; cbn; [reflexivity|].
  rewrite IH. f_equal. lia.
Qed.





(** ** Events without text *)

(** C3 (as amended). On the PostgreSQL server an event whose text is missing
    adds no turn row and no placement, changes no block and no meeting
    record, and ends with an error written to the console; the speaker may
    have been registered as an attendee before the turn was rejected. *)
Theorem pg_missing_text_rejected env t w :
  Transcript.text t = None ->
  let w' := snd (Postgres.on_message env (Json t) w) in
  turns (db w') = turns (db w)
  /\ block_turns (db w') = block_turns (db w)
  /\ blocks (db w') = blocks (db w)
  /\ block_meetings (db w') = block_meetings (db w)
  /\ exists logs msg,
       console w' = (console w ++ logs ++ [console_error msg])%list.
Proof.
  intros Hc. cbn zeta.
  destruct (Postgres.on_message env (Json t) w) as [r w'] eqn:E. cbn [snd].
  unfold Postgres.on_message, try_catch in E.
  said E.
  unfold bind at 1 in E. unfold query at 1, select_block_id_by_bot in E.
  cbn [db console] in E.
  destruct (map _ _) as [|b rest].
  { injection E as <- <-. cbn. repeat split.
    exists [console_log "Received transcript:"], "No meeting found for bot:".
    now rewrite <- app_assoc. }
  unfold bind at 1 in E.
  destruct (pg_getOrCreateAttendee_frame (now_attendee env) b
              (Transcript.speaker t)
              (mk_world (db w) (console w ++ [console_log "Received transcript:"])))
    as [(Hb & Hm & Ht & Hbt & Hu) Hlog].
  destruct (Postgres.getOrCreateAttendee _ _ _ _) as [[a|e] w1];
    cbn [db snd console] in *.
  - unfold bind at 1 in E. unfold query at 1, insert_turn in E.
    rewrite Hc in E. injection E as <- <-. cbn. repeat split; try assumption.
    exists [console_log "Received transcript:"], "Error processing transcript:".
    now rewrite Hlog, <- app_assoc.
  - injection E as <- <-. cbn. repeat split; try assumption.
    exists [console_log "Received transcript:"], "Error processing transcript:".
    now rewrite Hlog, <- app_assoc.
Qed.

Lemma pg_missing_text_rejected_witness :
  let w' := snd (Postgres.on_message (Sample.clock Sample.t1)
                   (Sample.says None None) Sample.standup) in
  turns (db w') = [] /\ block_turns (db w') = []
  /\ block_attendees (db w') = [Sample.dana].
Proof.
  pose proof (pg_missing_text_rejected (Sample.clock Sample.t1)
                (Transcript.mk (Some "bot-1") (Some "Dana") None None None)
                Sample.standup eq_refl) as (Ht & Hbt & _).
  split; [exact Ht|]. split; [exact Hbt|]. vm_compute. reflexivity.
Defined.

(** C3, counterexample. An event whose text is the empty string passes the
    NOT NULL constraint: the PostgreSQL server stores a turn with empty
    content and places it, and logs no error. *)
Lemma pg_empty_text_is_stored :
  let w' := snd (Postgres.on_message (Sample.clock Sample.t1)
                   (Sample.says (Some "") None) Sample.standup) in
  turns (db Sample.standup) = [] /\ block_turns (db Sample.standup) = []
  /\ map Turns.content (turns (db w')) = [""]
  /\ positions 0%nat (db w') = [1]
  /\ ~ (turns (db w') = turns (db Sample.standup)
        /\ block_turns (db w') = block_turns (db Sample.standup)).
Proof.
  vm_compute. repeat split. intros [H _]. discriminate H.
Qed.

(** ** Lifecycle notifications *)

Lemma strict_eq_false (v : option string) (literal : string) :
  v <> Some literal -> strict_eq v literal = false.
Proof.
  destruct v as [s|]; cbn; [|reflexivity].
  intros H. apply String.eqb_neq. congruence.
Qed.


Lemma store_eta (s : store) :
  mk_store (blocks s) (block_meetings s) (block_attendees s) (turns s)
           (block_turns s) (uuid_gen s) (block_attendees_id_seq s) = s.
Proof. destruct s; reflexivity. Qed.




(** C10. A lifecycle event with a truthy bot id and a status other than
    "completed" rewrites, in the meeting records of that bot, the status and
    updated_at and nothing else; the other meeting records and the other
    tables are unchanged. *)
Theorem webhook_touches_status_only env event w bot :
  Event.bot_id event = Some bot ->
  bot <> "" ->
  Event.status event <> Some "completed" ->
  let s := db w in
  let s' := db (snd (Postgres.webhook env event w)) in
  block_meetings s'
  = map (fun m =>
           if (BlockMeetings.recall_bot_id m =? bot)%string
           then BlockMeetings.mk
                  (BlockMeetings.block_id m) (BlockMeetings.recall_bot_id m)
                  (BlockMeetings.meeting_url m) (Event.status event)
                  (BlockMeetings.invited_by_user_id m)
                  (BlockMeetings.full_transcript m)
                  (BlockMeetings.started_at m) (BlockMeetings.ended_at m)
                  (BlockMeetings.created_at m) (now_trigger env)
           else m)
        (block_meetings s)
  /\ blocks s' = blocks s
  /\ block_attendees s' = block_attendees s
  /\ turns s' = turns s
  /\ block_turns s' = block_turns s.
Proof.
  intros Hb Hne Hst. cbn zeta.
  destruct (pg_webhook_frame env event w) as (F1 & F2 & F3 & F4).
  split; [|tauto].
  destruct (pg_webhook_runs env event w) as [logs ->]. cbn [snd db].
  rewrite Hb. cbn [truthy].
  apply String.eqb_neq in Hne. rewrite Hne. cbn [negb snd update_meeting block_meetings].
  unfold lifecycle_update. rewrite (strict_eq_false _ _ Hst).
  apply map_ext. intros m. destruct (_ =? _)%string; reflexivity.
Qed.

Lemma webhook_touches_status_only_witness :
  map BlockMeetings.status
      (block_meetings
         (db (snd (Postgres.webhook
                     (mk_webhook_env Sample.t1 Sample.t1 TranscriptThrows
                                     Sample.t2)
                     (Event.mk (Some "bot-1") (Some "in_progress"))
                     Sample.standup))))
  = [Some "in_progress"].
Proof.
  pose proof (webhook_touches_status_only
                (mk_webhook_env Sample.t1 Sample.t1 TranscriptThrows Sample.t2)
                (Event.mk (Some "bot-1") (Some "in_progress"))
                Sample.standup "bot-1" eq_refl) as H.
  cbn zeta in H. destruct H as (H & _); [discriminate|discriminate|].
  rewrite H. reflexivity.
Defined.






(** ** Session creation *)

Example to_bigint_reads_decimals :
  to_bigint (Str "7") = Some 7 /\ to_bigint (Str "-12") = Some (-12)
  /\ to_bigint (Num 7) = Some 7 /\ to_bigint (Str "dana") = None
  /\ to_bigint (Str "") = None /\ to_bigint (Str "-") = None.
Proof. vm_compute. repeat split. Qed.






(** C5, the failing input. A create-bot request whose client_id is not a
    number: the PostgreSQL server has stored the block when the meeting
    record is rejected, answers 500 and leaves the block without a meeting
    record; the Supabase server deletes the block it had stored. *)
Example pg_create_bot_leaves_orphan :
  let body := CreateBot.mk (Some "https://call/abc") (Some (Str "dana"))
                           (Some "Standup") in
  let pg := Postgres.create_bot (Sample.provisioned "bot-1") body Sample.fresh in
  let sb := Supabase.create_bot (Sample.provisioned "bot-1") body Sample.fresh in
  fst pg = Ok (JsonError 500 "Internal server error"
                         (Some "invalid input syntax"))
  /\ map Blocks.block_id (blocks (db (snd pg))) = [0%nat]
  /\ block_meetings (db (snd pg)) = []
  /\ forallb (fun b => orphan b (db (snd pg))) (blocks (db (snd pg))) = true
  /\ fst sb = Ok (JsonError 500 "Failed to create meeting record" None)
  /\ blocks (db (snd sb)) = [].
Proof. vm_compute. repeat split. Qed.

(** ** Racing resolutions of one speaker label *)

Lemma insert_attendee_unique now b n story s :
  attendees_unique s ->
  attendees_unique (snd (insert_attendee now b n story s)).
Proof.
  intros H b' n'. unfold insert_attendee.
  destruct n as [n|]; cbn [snd]; [|apply H].
  destruct (negb (block_exists b s)); cbn [snd]; [apply H|].
  destruct (attendees_named b (Some n) s) as [|a rest] eqn:E; cbn [snd];
    [|apply H].
  erewrite attendees_named_snoc by reflexivity. cbn [BlockAttendees.block_id BlockAttendees.name].
  destruct (Nat.eqb_spec b b') as [->|Hb]; cbn [andb].
  - destruct (String.eqb_spec n n') as [->|Hn].
    + rewrite E. cbn. lia.
    + rewrite app_nil_r. apply H.
  - rewrite app_nil_r. apply H.
Qed.

Lemma advance_unique now c s :
  attendees_unique s -> attendees_unique (snd (Race.advance now c s)).
Proof.
  intros H. destruct c as [b n|b n|a|e]; cbn; try assumption.
  - destruct (attendees_named b n s); assumption.
  - pose proof (insert_attendee_unique now b n
                  (template n ++ " joined the meeting.") s H) as H'.
    destruct (insert_attendee _ _ _ _ _) as [[a|e] s']; exact H'.
Qed.

Lemma interleave_unique schedule c1 c2 s :
  attendees_unique s ->
  attendees_unique (snd (Race.interleave schedule c1 c2 s)).
Proof.
  revert c1 c2 s.
  induction schedule as [|[[|] now] rest IH]; intros c1 c2 s H; cbn;
    [assumption| |].
  - pose proof (advance_unique now c1 s H) as H'.
    destruct (Race.advance now c1 s) as [c1' s']. now apply IH.
  - pose proof (advance_unique now c2 s H) as H'.
    destruct (Race.advance now c2 s) as [c2' s']. now apply IH.
Qed.

(** A call left alone goes through its two steps to what
    [Postgres.getOrCreateAttendee] returns. *)
Lemma advance_alone now b n w :
  let (c1, s1) := Race.advance now (Race.AtSelect b n) (db w) in
  let (c2, s2) := Race.advance now c1 s1 in
  Postgres.getOrCreateAttendee now b n w
  = (match c2 with
     | Race.Returned a => Ok a
     | Race.Raised e => Throw e
     | _ => Throw SyntaxError
     end, mk_world s2 (console w))
  /\ Race.finished c2 = true.
Proof.
  unfold Postgres.getOrCreateAttendee, bind, query, select_attendees, ret.
  cbn. destruct (attendees_named b n (db w)) as [|a rest]; cbn.
  - destruct (insert_attendee _ _ _ _ _) as [[a|e] s']; cbn; split; reflexivity.
  - split; reflexivity.
Qed.

(** C6 (as amended). However two calls of getOrCreateAttendee for the same
    session and label interleave at their queries, a store that held at most
    one attendee per (session, name) still does, so at most one attendee
    exists for the label afterwards: the unique index rejects the second
    INSERT.  The INSERT is a plain one: a call that reaches it when the row
    already exists raises the unique violation and adds no row. *)
Theorem race_keeps_one_attendee schedule b n s :
  attendees_unique s ->
  let s' := snd (Race.interleave schedule (Race.AtSelect b (Some n))
                                 (Race.AtSelect b (Some n)) s) in
  attendees_unique s'
  /\ (length (attendees_named b (Some n) s') <= 1)%nat
  /\ (forall now s0,
         block_exists b s0 = true ->
         attendees_named b (Some n) s0 <> [] ->
         fst (Race.advance now (Race.AtInsert b (Some n)) s0)
         = Race.Raised (DatabaseError
                          (unique_violation "idx_block_attendees_unique"))
         /\ block_attendees (snd (Race.advance now (Race.AtInsert b (Some n)) s0))
            = block_attendees s0).
Proof.
  intros H. cbn zeta.
  pose proof (interleave_unique schedule (Race.AtSelect b (Some n))
                (Race.AtSelect b (Some n)) s H) as H'.
  split; [exact H'|]. split; [apply H'|].
  intros now s0 Hb Hne. cbn [Race.advance]. unfold insert_attendee.
  rewrite Hb. cbn [negb].
  destruct (attendees_named b (Some n) s0); [congruence|].
  split; reflexivity.
Qed.

Lemma race_keeps_one_attendee_witness :
  let schedule := [(Race.First, Sample.t1); (Race.Second, Sample.t1);
                   (Race.Second, Sample.t2); (Race.First, Sample.t2)] in
  (length (attendees_named 0%nat (Some "Dana")
             (snd (Race.interleave schedule
                     (Race.AtSelect 0%nat (Some "Dana"))
                     (Race.AtSelect 0%nat (Some "Dana"))
                     (db Sample.standup)))) <= 1)%nat.
Proof.
  refine (proj1 (proj2 (race_keeps_one_attendee _ 0%nat "Dana"
                          (db Sample.standup) _))).
  intros b n. cbn. lia.
Defined.

(** C6, counterexample. Both calls run their SELECT before either INSERT:
    the first call creates Dana, the second call's INSERT raises the unique
    violation instead of resolving to her. *)
Lemma race_loser_raises :
  let schedule := [(Race.First, Sample.t1); (Race.Second, Sample.t1);
                   (Race.First, Sample.t1); (Race.Second, Sample.t1)] in
  let outcome := Race.interleave schedule
                   (Race.AtSelect 0%nat (Some "Dana"))
                   (Race.AtSelect 0%nat (Some "Dana"))
                   (db Sample.standup) in
  fst (fst outcome) = Race.Returned Sample.dana
  /\ snd (fst outcome)
     = Race.Raised (DatabaseError
                      (unique_violation "idx_block_attendees_unique"))
  /\ block_attendees (snd outcome) = [Sample.dana].
Proof. vm_compute. repeat split. Qed.

(** ** The two servers side by side *)

Lemma sb_getOrCreateAttendee_ok now b n w :
  block_exists b (db w) = true ->
  attendees_unique (db w) ->
  exists a w1,
    Supabase.getOrCreateAttendee now b (Some n) w = (Ok (Some a), w1)
    /\ same_but_attendees (db w) (db w1)
    /\ console w1 = console w.
Proof.
  intros Hb Hu. specialize (Hu b n).
  unfold Supabase.getOrCreateAttendee, bind, query, select_attendees.
  cbn [db console].
  destruct (attendees_named b (Some n) (db w)) as [|a [|a' rest]] eqn:E;
    cbn [Supabase.single].
  - unfold Supabase.data_of, insert_attendee. cbn [db console].
    rewrite Hb, E. cbn [negb]. eexists _, _. split; [reflexivity|].
    unfold same_but_attendees. cbn. tauto.
  - exists a, w. unfold ret. rewrite world_eta.
    unfold same_but_attendees. tauto.
  - cbn in Hu. lia.
Qed.

(** An event for a session with exactly one meeting record, with a speaker
    and a text, is placed by the Supabase server at its sequence hint. *)
Lemma sb_on_message_appends env t w m n c :
  select_meeting_by_bot (Transcript.bot_id t) (db w) = [m] ->
  Transcript.speaker t = Some n ->
  Transcript.text t = Some c ->
  block_exists (BlockMeetings.block_id m) (db w) = true ->
  placements_sound (db w) ->
  attendees_unique (db w) ->
  in_int4 (or_zero (Transcript.sequence t)) = true ->
  block_turns (db (snd (Supabase.on_message env (Json t) w)))
  = (block_turns (db w)
     ++ [BlockTurns.mk (BlockMeetings.block_id m) (uuid_gen (db w))
           (or_zero (Transcript.sequence t)) (now_link env)])%list.
Proof.
  intros Hm Hs Hc Hb Hp Hu Hi.
  set (w0 := mk_world (db w) (console w ++ [console_log "Received transcript:"])).
  destruct (sb_getOrCreateAttendee_ok (now_attendee env)
              (BlockMeetings.block_id m) n w0 Hb Hu)
    as (a & w1 & Ha & (Fb & Fm & Ft & Fbt & Fg) & _).
  subst w0. cbn [db] in *.
  unfold Supabase.on_message, try_catch.
  unfold bind at 1. cbn [say].
  unfold bind at 1. unfold query at 1, select_block_id_by_bot.
  cbn [db console]. rewrite Hm. cbn [map Supabase.single].
  unfold bind at 1. rewrite Hs, Ha.
  unfold bind at 1. unfold Supabase.data_of at 1, insert_turn. rewrite Hc.
  unfold bind at 1. unfold Supabase.data_of, insert_block_turn.
  cbn [db console]. rewrite Hi. cbn [negb].
  unfold block_exists in *. cbn [blocks]. rewrite Fb, Hb. cbn [negb].
  unfold turn_exists. cbn [turns]. rewrite existsb_app.
  cbn [existsb Turns.turn_id]. rewrite Nat.eqb_refl, orb_true_r.
  cbn [orb negb block_turns uuid_gen]. rewrite Fbt, Fg.
  rewrite (placement_key_free _ (db w) Hp). cbn. reflexivity.
Qed.

(** C9 (as amended). For an event that both servers append (the bot has one
    meeting record in a stored block, the event names a speaker and a text,
    no INTEGER limit is met), the PostgreSQL server places the turn at one
    more than the session's maximum and the Supabase server at the event's
    sequence hint, 0 when there is none; the two positions coincide exactly
    when the hint is one more than the maximum. *)
Theorem variants_agree_iff env t w m n c :
  select_meeting_by_bot (Transcript.bot_id t) (db w) = [m] ->
  Transcript.speaker t = Some n ->
  Transcript.text t = Some c ->
  block_exists (BlockMeetings.block_id m) (db w) = true ->
  placements_sound (db w) ->
  attendees_unique (db w) ->
  coalesce0 (sql_max (positions (BlockMeetings.block_id m) (db w))) < int4_max ->
  in_int4 (or_zero (Transcript.sequence t)) = true ->
  let b := BlockMeetings.block_id m in
  let pg := db (snd (Postgres.on_message env (Json t) w)) in
  let sb := db (snd (Supabase.on_message env (Json t) w)) in
  positions b pg
  = (positions b (db w) ++ [coalesce0 (sql_max (positions b (db w))) + 1])%list
  /\ positions b sb
     = (positions b (db w) ++ [or_zero (Transcript.sequence t)])%list
  /\ (positions b pg = positions b sb
      <-> or_zero (Transcript.sequence t)
          = coalesce0 (sql_max (positions b (db w))) + 1).
Proof.
  intros Hm Hs Hc Hb Hp Hu Ho Hi b pg sb.
  assert (Hpg : positions b pg
                = (positions b (db w)
                   ++ [coalesce0 (sql_max (positions b (db w))) + 1])%list).
  { destruct (pg_on_message_appends env t w b [] n c) as (a & w1 & _ & E);
      try assumption.
    - now rewrite Hm.
    - subst pg. rewrite E. cbn [snd db].
      erewrite positions_snoc by reflexivity. cbn. now rewrite Nat.eqb_refl. }
  assert (Hsb : positions b sb
                = (positions b (db w) ++ [or_zero (Transcript.sequence t)])%list).
  { subst sb.
    erewrite positions_snoc
      by (apply (sb_on_message_appends env t w m n c); assumption).
    cbn. fold b. now rewrite Nat.eqb_refl. }
  split; [exact Hpg|]. split; [exact Hsb|].
  rewrite Hpg, Hsb. split.
  - intros E. apply app_inv_head in E. congruence.
  - intros ->. reflexivity.
Qed.

Lemma variants_agree_iff_witness :
  positions 0%nat
    (db (snd (Postgres.on_message (Sample.clock Sample.t1)
                (Sample.says (Some "Let's start") (Some 1)) Sample.standup)))
  = positions 0%nat
      (db (snd (Supabase.on_message (Sample.clock Sample.t1)
                  (Sample.says (Some "Let's start") (Some 1)) Sample.standup))).
Proof.
  refine (proj2 (proj2 (proj2
            (variants_agree_iff (Sample.clock Sample.t1)
               (Transcript.mk (Some "bot-1") (Some "Dana")
                              (Some "Let's start") None (Some 1))
               Sample.standup
               (BlockMeetings.mk 0%nat "bot-1" "https://call/abc"
                  (Some "joining") (Some 7) None Sample.t0 None Sample.t0
                  Sample.t0)
               "Dana" "Let's start" eq_refl eq_refl eq_refl eq_refl _ _ _ eq_refl)))
          eq_refl).
  - constructor.
  - intros b n. cbn. lia.
  - vm_compute. reflexivity.
Defined.

(** C9, counterexample. The first event of a session, without a sequence
    hint: the PostgreSQL server places it at 1, the Supabase server at 0. *)
Lemma variants_disagree_without_hint :
  let event := Sample.says (Some "Let's start") None in
  let pg := db (snd (Postgres.on_message (Sample.clock Sample.t1) event
                       Sample.standup)) in
  let sb := db (snd (Supabase.on_message (Sample.clock Sample.t1) event
                       Sample.standup)) in
  positions 0%nat pg = [1] /\ positions 0%nat sb = [0]
  /\ positions 0%nat pg <> positions 0%nat sb.
Proof. vm_compute. repeat split. discriminate. Qed.

(** * Further properties of the two servers *)

(** ** What a socket message can do *)

Lemma pg_getOrCreateAttendee_grows now b n w :
  exists added,
    block_attendees (db (snd (Postgres.getOrCreateAttendee now b n w)))
    = (block_attendees (db w) ++ added)%list
    /\ (length added <= 1)%nat
    /\ Forall (fun a => BlockAttendees.block_id a = b
                        /\ Some (BlockAttendees.name a) = n) added.
Proof.
  unfold Postgres.getOrCreateAttendee, bind, query, select_attendees, ret.
  cbn [db console].
  destruct (attendees_named b n (db w)) as [|a rest]; cbn [db snd].
  - unfold insert_attendee.
    destruct n as [n|]; cbn [db snd block_attendees];
      [|exists []; rewrite app_nil_r; repeat split; auto].
    destruct (negb (block_exists b (db w))); cbn [db snd block_attendees];
      [exists []; rewrite app_nil_r; repeat split; auto|].
    destruct (attendees_named b (Some n) (db w)); cbn [db snd block_attendees];
      [|exists []; rewrite app_nil_r; repeat split; auto].
    eexists [_]. repeat split; [cbn; lia|]. repeat constructor.
  - exists []. rewrite app_nil_r. repeat split; auto.
Qed.

(** X1. A socket message on the PostgreSQL server never raises to the
    socket, never touches blocks or meeting records, and adds at most one
    attendee, one turn and one placement, a placement only together with its
    turn. *)
Theorem pg_on_message_effect env data w :
  let r := Postgres.on_message env data w in
  fst r = Ok tt
  /\ blocks (db (snd r)) = blocks (db w)
  /\ block_meetings (db (snd r)) = block_meetings (db w)
  /\ exists attendees_added turns_added placements_added,
       block_attendees (db (snd r))
       = (block_attendees (db w) ++ attendees_added)%list
       /\ turns (db (snd r)) = (turns (db w) ++ turns_added)%list
       /\ block_turns (db (snd r))
          = (block_turns (db w) ++ placements_added)%list
       /\ (length attendees_added <= 1)%nat
       /\ (length turns_added <= 1)%nat
       /\ (length placements_added <= length turns_added)%nat.
Proof.
  cbn zeta.
  destruct (Postgres.on_message env data w) as [r w'] eqn:E. cbn [fst snd].
  unfold Postgres.on_message, try_catch in E.
  assert (Nothing : forall c,
             exists aa ta pa,
               block_attendees (db (mk_world (db w) c))
               = (block_attendees (db w) ++ aa)%list
               /\ turns (db (mk_world (db w) c)) = (turns (db w) ++ ta)%list
               /\ block_turns (db (mk_world (db w) c))
                  = (block_turns (db w) ++ pa)%list
               /\ (length aa <= 1)%nat /\ (length ta <= 1)%nat
               /\ (length pa <= length ta)%nat).
  { intros c. exists [], [], []. cbn. rewrite !app_nil_r. repeat split; lia. }
  destruct data as [|t].
  { injection E as <- <-. cbn [say snd]. repeat split. apply Nothing. }
  said E.
  unfold bind at 1 in E. unfold query at 1, select_block_id_by_bot in E.
  cbn [db console] in E.
  destruct (map _ _) as [|b rest].
  { injection E as <- <-. cbn [say snd]. repeat split. apply Nothing. }
  unfold bind at 1 in E.
  set (w0 := mk_world (db w) (console w ++ [console_log "Received transcript:"]))
    in *.
  destruct (pg_getOrCreateAttendee_frame (now_attendee env) b
              (Transcript.speaker t) w0) as [(Hb & Hm & Ht & Hbt & Hu) _].
  destruct (pg_getOrCreateAttendee_grows (now_attendee env) b
              (Transcript.speaker t) w0) as (aa & Haa & Hlen & _).
  destruct (Postgres.getOrCreateAttendee _ _ _ _) as [[a|e] w1];
    cbn [db snd] in *; subst w0; cbn [db] in *.
  2:{ injection E as <- <-. cbn [say snd db]. repeat split; try assumption.
      exists aa, [], []. rewrite !app_nil_r. repeat split; auto. }
  unfold bind at 1 in E. unfold query at 1, insert_turn in E.
  destruct (Transcript.text t) as [c|].
  2:{ injection E as <- <-. cbn. repeat split; try assumption.
      exists aa, [], []. rewrite !app_nil_r. repeat split; auto. }
  unfold bind at 1 in E. unfold query at 1, select_next_order in E.
  cbn [db console] in E.
  destruct (_ <=? int4_max).
  2:{ injection E as <- <-. cbn. repeat split; try assumption.
      eexists aa, [_], []. rewrite !app_nil_r, Ht.
      repeat split; auto; cbn; lia. }
  unfold query in E. cbn [db console] in E.
  match type of E with
  | context [insert_block_turn ?n ?b ?tid ?o ?s2] =>
      destruct (insert_block_turn_cases n b tid o s2) as [E'|[e E']];
        rewrite E' in E
  end; injection E as <- <-; cbn; repeat split; try assumption.
  - eexists aa, [_], [_]. rewrite Ht, Hbt. repeat split; auto.
  - eexists aa, [_], []. rewrite !app_nil_r, Ht. repeat split; auto; cbn; lia.
Qed.

(** X2. A turn for a bot without a meeting record is dropped by both
    servers: the store is left as it is and the console gets the receipt
    line and "No meeting found for bot:". *)
Theorem unknown_bot_dropped env t w :
  select_meeting_by_bot (Transcript.bot_id t) (db w) = [] ->
  let dropped :=
    (Ok tt,
     mk_world (db w)
              (console w ++ [console_log "Received transcript:";
                             console_error "No meeting found for bot:"])) in
  Postgres.on_message env (Json t) w = dropped
  /\ Supabase.on_message env (Json t) w = dropped.
Proof.
  intros H. cbn zeta.
  unfold Postgres.on_message, Supabase.on_message, try_catch, bind, query,
    select_block_id_by_bot, say.
  cbn [db console]. rewrite H. cbn. rewrite <- app_assoc. split; reflexivity.
Qed.

Lemma unknown_bot_dropped_witness :
  db (snd (Postgres.on_message (Sample.clock Sample.t1)
             (Json (Transcript.mk (Some "bot-9") (Some "Dana") (Some "Hi")
                                  None None))
             Sample.standup))
  = db Sample.standup.
Proof.
  pose proof (unknown_bot_dropped (Sample.clock Sample.t1)
                (Transcript.mk (Some "bot-9") (Some "Dana") (Some "Hi")
                               None None)
                Sample.standup eq_refl) as [H _].
  cbn zeta in H. rewrite H. reflexivity.
Defined.



Lemma pg_on_message_at_limit env t w b rest n c :
  map BlockMeetings.block_id
      (select_meeting_by_bot (Transcript.bot_id t) (db w)) = b :: rest ->
  Transcript.speaker t = Some n ->
  Transcript.text t = Some c ->
  block_exists b (db w) = true ->
  coalesce0 (sql_max (positions b (db w))) = int4_max ->
  exists a w1,
    Postgres.on_message env (Json t) w
    = (Ok tt,
       mk_world
         (mk_store
            (blocks (db w)) (block_meetings (db w)) (block_attendees (db w1))
            (turns (db w)
             ++ [Turns.mk (uuid_gen (db w)) (Some (BlockAttendees.id a)) c
                   (Some "recall_bot")
                   (Some (Turns.mk_meta
                            (or_else (Transcript.timestamp t) (js_now env))
                            (Transcript.bot_id t)))
                   (now_turn env) None (now_turn env)])
            (block_turns (db w))
            (S (uuid_gen (db w))) (block_attendees_id_seq (db w1)))
         (console w ++ [console_log "Received transcript:";
                        console_error "Error processing transcript:"])).
Proof.
  intros Hm Hs Hc Hb Ho.
  set (w0 := mk_world (db w) (console w ++ [console_log "Received transcript:"])).
  destruct (pg_getOrCreateAttendee_ok (now_attendee env) b n w0 Hb)
    as (a & w1 & Ha).
  pose proof (pg_getOrCreateAttendee_frame (now_attendee env) b (Some n) w0)
    as [(Fb & Fm & Ft & Fbt & Fu) Fc].
  rewrite Ha in *. cbn [snd db] in *. subst w0. cbn [db console] in *.
  exists a, w1.
  unfold Postgres.on_message, try_catch.
  unfold bind at 1. cbn [say].
  unfold bind at 1. unfold query at 1, select_block_id_by_bot. cbn [db console].
  rewrite Hm. unfold bind at 1. rewrite Hs, Ha.
  unfold bind at 1. unfold query at 1, insert_turn. rewrite Hc.
  unfold bind at 1. unfold query at 1, select_next_order. cbn [db console].
  assert (Hpos : forall s', block_turns s' = block_turns (db w1) ->
                            positions b s' = positions b (db w)).
  { intros s' E. unfold positions. congruence. }
  rewrite Hpos by reflexivity. rewrite Ho.
  change (int4_max + 1 <=? int4_max) with false.
  unfold say. cbn. rewrite Fb, Fm, Ft, Fbt, Fu, Fc, <- app_assoc. reflexivity.
Qed.

(** X4. At the INTEGER limit the PostgreSQL server stores a turn it cannot
    place: when the session's maximum position is 2147483647, the turn row is
    inserted, the computation of the next position raises, no placement is
    added and the error is written to the console. *)
Theorem pg_turn_unplaced_at_limit env t w b rest n c :
  map BlockMeetings.block_id
      (select_meeting_by_bot (Transcript.bot_id t) (db w)) = b :: rest ->
  Transcript.speaker t = Some n ->
  Transcript.text t = Some c ->
  block_exists b (db w) = true ->
  coalesce0 (sql_max (positions b (db w))) = int4_max ->
  let w' := snd (Postgres.on_message env (Json t) w) in
  (exists turn,
     turns (db w') = (turns (db w) ++ [turn])%list
     /\ Turns.content turn = c
     /\ Turns.turn_id turn = uuid_gen (db w))
  /\ block_turns (db w') = block_turns (db w)
  /\ console w'
     = (console w ++ [console_log "Received transcript:";
                      console_error "Error processing transcript:"])%list.
Proof.
  intros Hm Hs Hc Hb Ho. cbn zeta.
  destruct (pg_on_message_at_limit env t w b rest n c Hm Hs Hc Hb Ho)
    as (a & w1 & ->).
  cbn [snd db console turns block_turns]. split; [|split; reflexivity].
  eexists. repeat split.
Qed.

Lemma pg_turn_unplaced_at_limit_witness :
  let full :=
    Supabase.serve
      (Supabase.Message (Sample.clock Sample.t1)
                        (Sample.says (Some "Last one") (Some 2147483647)))
      Sample.standup in
  let w' := snd (Postgres.on_message (Sample.clock Sample.t2)
                   (Sample.says (Some "One more") None) full) in
  positions 0%nat (db full) = [2147483647]
  /\ map Turns.content (turns (db w')) = ["Last one"; "One more"]
  /\ positions 0%nat (db w') = [2147483647].
Proof.
  cbn zeta. split; [vm_compute; reflexivity|].
  destruct (pg_turn_unplaced_at_limit (Sample.clock Sample.t2)
              (Transcript.mk (Some "bot-1") (Some "Dana") (Some "One more")
                             None None)
              (Supabase.serve
                 (Supabase.Message (Sample.clock Sample.t1)
                    (Sample.says (Some "Last one") (Some 2147483647)))
                 Sample.standup)
              0%nat [] "Dana" "One more" eq_refl eq_refl eq_refl eq_refl eq_refl)
    as ((turn & Ht & Hc & _) & Hbt & _).
  split.
  - change (Sample.says (Some "One more") None)
      with (Json (Transcript.mk (Some "bot-1") (Some "Dana") (Some "One more")
                                None None)).
    rewrite Ht, map_app. cbn [map]. rewrite Hc. vm_compute. reflexivity.
  - unfold positions.
    change (Sample.says (Some "One more") None)
      with (Json (Transcript.mk (Some "bot-1") (Some "Dana") (Some "One more")
                                None None)).
    rewrite Hbt. vm_compute. reflexivity.
Defined.

Lemma sb_on_message_unplaced env t w m n c :
  select_meeting_by_bot (Transcript.bot_id t) (db w) = [m] ->
  Transcript.speaker t = Some n ->
  Transcript.text t = Some c ->
  block_exists (BlockMeetings.block_id m) (db w) = true ->
  attendees_unique (db w) ->
  in_int4 (or_zero (Transcript.sequence t)) = false ->
  exists a w1,
    Supabase.on_message env (Json t) w
    = (Ok tt,
       mk_world
         (mk_store
            (blocks (db w)) (block_meetings (db w)) (block_attendees (db w1))
            (turns (db w)
             ++ [Turns.mk (uuid_gen (db w)) (Some (BlockAttendees.id a)) c
                   (Some "recall_bot") None
                   (or_else (Transcript.timestamp t) (js_now env))
                   (Some 1) (now_turn env)])
            (block_turns (db w))
            (S (uuid_gen (db w))) (block_attendees_id_seq (db w1)))
         (console w ++ [console_log "Received transcript:"])).
Proof.
  intros Hm Hs Hc Hb Hu Hi.
  set (w0 := mk_world (db w) (console w ++ [console_log "Received transcript:"])).
  destruct (sb_getOrCreateAttendee_ok (now_attendee env)
              (BlockMeetings.block_id m) n w0 Hb Hu)
    as (a & w1 & Ha & (Fb & Fm & Ft & Fbt & Fg) & Fc).
  subst w0. cbn [db console] in *. exists a, w1.
  unfold Supabase.on_message, try_catch.
  unfold bind at 1. cbn [say].
  unfold bind at 1. unfold query at 1, select_block_id_by_bot.
  cbn [db console]. rewrite Hm. cbn [map Supabase.single].
  unfold bind at 1. rewrite Hs, Ha.
  unfold bind at 1. unfold Supabase.data_of at 1, insert_turn. rewrite Hc.
  unfold bind at 1. unfold Supabase.data_of, insert_block_turn.
  cbn [db console]. rewrite Hi.
  cbn. rewrite Fb, Fm, Ft, Fbt, Fg, Fc. reflexivity.
Qed.

(** X5. The Supabase server does not look at the answer of the block_turns
    insert: when the sequence hint is not an INTEGER the turn is stored, no
    placement is added and nothing but the receipt line is written to the
    console. *)
Theorem sb_turn_unplaced_silently env t w m n c :
  select_meeting_by_bot (Transcript.bot_id t) (db w) = [m] ->
  Transcript.speaker t = Some n ->
  Transcript.text t = Some c ->
  block_exists (BlockMeetings.block_id m) (db w) = true ->
  attendees_unique (db w) ->
  in_int4 (or_zero (Transcript.sequence t)) = false ->
  let w' := snd (Supabase.on_message env (Json t) w) in
  (exists turn,
     turns (db w') = (turns (db w) ++ [turn])%list /\ Turns.content turn = c)
  /\ block_turns (db w') = block_turns (db w)
  /\ console w' = (console w ++ [console_log "Received transcript:"])%list.
Proof.
  intros Hm Hs Hc Hb Hu Hi. cbn zeta.
  destruct (sb_on_message_unplaced env t w m n c Hm Hs Hc Hb Hu Hi)
    as (a & w1 & ->).
  cbn [snd db console turns block_turns]. split; [|split; reflexivity].
  eexists. split; reflexivity.
Qed.

Lemma sb_turn_unplaced_silently_witness :
  let w' := snd (Supabase.on_message (Sample.clock Sample.t1)
                   (Sample.says (Some "Hi") (Some 4294967296))
                   Sample.standup) in
  block_turns (db w') = []
  /\ console w' = (console Sample.standup
                   ++ [console_log "Received transcript:"])%list.
Proof.
  refine (proj2 (sb_turn_unplaced_silently (Sample.clock Sample.t1)
                   (Transcript.mk (Some "bot-1") (Some "Dana") (Some "Hi")
                                  None (Some 4294967296))
                   Sample.standup
                   (BlockMeetings.mk 0%nat "bot-1" "https://call/abc"
                      (Some "joining") (Some 7) None Sample.t0 None Sample.t0
                      Sample.t0)
                   "Dana" "Hi" eq_refl eq_refl eq_refl eq_refl _ eq_refl)).
  intros b n. cbn. lia.
Defined.

(** ** What a lifecycle notification can do *)




Lemma sb_webhook_runs env event w :
  exists logs,
    Supabase.webhook env event w
    = (Ok (Send 200 "OK"),
       mk_world
         (match Event.bot_id event with
          | Some bot_id =>
              if truthy (Event.bot_id event)
              then snd (Supabase.patch_meeting (now_trigger env) bot_id
                          (lifecycle_update env event) (db w))
              else db w
          | None => db w
          end)
         (console w ++ console_log "Webhook received:" :: logs))
    /\ Postgres.webhook env event w
       = (Ok (Send 200 "OK"),
          mk_world
            (match Event.bot_id event with
             | Some bot_id =>
                 if truthy (Event.bot_id event)
                 then snd (update_meeting (now_trigger env) bot_id
                             (lifecycle_update env event) (db w))
                 else db w
             | None => db w
             end)
            (console w ++ console_log "Webhook received:" :: logs)).
Proof.
  destruct (build_update_runs env event
              (mk_world (db w) (console w ++ [console_log "Webhook received:"])))
    as [logs E].
  destruct (Event.bot_id event) as [bot|] eqn:Hb.
  - destruct (truthy (Some bot)) eqn:Ht.
    + exists logs. split.
      * unfold Supabase.webhook, try_catch, bind. cbn [say]. rewrite Hb, Ht, E.
        cbn. now rewrite <- app_assoc.
      * unfold Postgres.webhook, try_catch, bind. cbn [say]. rewrite Hb, Ht, E.
        cbn. now rewrite <- app_assoc.
    + exists []. split.
      * unfold Supabase.webhook, try_catch, bind. cbn [say]. rewrite Hb, Ht.
        reflexivity.
      * unfold Postgres.webhook, try_catch, bind. cbn [say]. rewrite Hb, Ht.
        reflexivity.
  - exists []. split.
    + unfold Supabase.webhook, try_catch, bind. cbn [say]. rewrite Hb.
      reflexivity.
    + unfold Postgres.webhook, try_catch, bind. cbn [say]. rewrite Hb.
      reflexivity.
Qed.



(** X9. For a notification without a status the two webhooks differ: the
    PostgreSQL server writes NULL into the status of the bot's records, the
    Supabase server sends no status and the stored one stays. *)
Theorem webhook_without_status env event w bot :
  Event.bot_id event = Some bot ->
  bot <> "" ->
  Event.status event = None ->
  map BlockMeetings.status
      (block_meetings (db (snd (Postgres.webhook env event w))))
  = map (fun m => if (BlockMeetings.recall_bot_id m =? bot)%string
                  then None else BlockMeetings.status m)
        (block_meetings (db w))
  /\ map BlockMeetings.status
         (block_meetings (db (snd (Supabase.webhook env event w))))
     = map BlockMeetings.status (block_meetings (db w)).
Proof.
  intros Hb Hne Hst.
  destruct (sb_webhook_runs env event w) as (logs & -> & ->).
  cbn [snd db]. rewrite Hb. cbn [truthy].
  apply String.eqb_neq in Hne. rewrite Hne.
  cbn [negb snd Supabase.patch_meeting update_meeting block_meetings].
  rewrite !map_map. unfold lifecycle_update. rewrite Hst. cbn [strict_eq].
  split; apply map_ext; intros m;
    destruct (BlockMeetings.recall_bot_id m =? bot)%string; reflexivity.
Qed.

Lemma webhook_without_status_witness :
  map BlockMeetings.status
      (block_meetings
         (db (snd (Postgres.webhook
                     (mk_webhook_env Sample.t1 Sample.t1 TranscriptThrows
                                     Sample.t1)
                     (Event.mk (Some "bot-1") None) Sample.standup))))
  = [None]
  /\ map BlockMeetings.status
         (block_meetings
            (db (snd (Supabase.webhook
                        (mk_webhook_env Sample.t1 Sample.t1 TranscriptThrows
                                        Sample.t1)
                        (Event.mk (Some "bot-1") None) Sample.standup))))
     = [Some "joining"].
Proof.
  pose proof (webhook_without_status
                (mk_webhook_env Sample.t1 Sample.t1 TranscriptThrows Sample.t1)
                (Event.mk (Some "bot-1") None) Sample.standup "bot-1"
                eq_refl) as H.
  destruct H as (H1 & H2); [discriminate|reflexivity|].
  rewrite H1, H2. split; reflexivity.
Defined.

(** ** What create-bot can do *)

(** X10. When no bot is provisioned (the request has no meeting URL, or
    Recall.ai refuses or cannot be reached) neither server writes anything:
    a missing URL is answered 400 before anything else happens, and a
    refusal is passed on with Recall.ai's own status code and text. *)
Theorem create_bot_without_bot env body w :
  truthy (CreateBot.meeting_url body) = false
  \/ (forall id, recall env <> BotCreated id) ->
  let pg := Postgres.create_bot env body w in
  let sb := Supabase.create_bot env body w in
  db (snd pg) = db w /\ db (snd sb) = db w
  /\ (truthy (CreateBot.meeting_url body) = false ->
      pg = (Ok (JsonError 400 "meeting_url is required" None), w)
      /\ sb = (Ok (JsonError 400 "meeting_url is required" None), w))
  /\ (truthy (CreateBot.meeting_url body) = true ->
      forall status error,
        recall env = BotRefused status error ->
        fst pg = Ok (JsonError status "Failed to create bot" (Some error))
        /\ fst sb = Ok (JsonError status "Failed to create bot" (Some error))).
Proof.
  intros H. cbn zeta.
  unfold Postgres.create_bot, Supabase.create_bot, try_catch.
  destruct (truthy (CreateBot.meeting_url body)); cbn [negb].
  - destruct H as [H|H]; [discriminate|].
    destruct (recall env) as [id|st err|].
    + now elim (H id).
    + cbn. repeat split; try discriminate.
      all: intros; match goal with E : BotRefused _ _ = _ |- _ =>
                             injection E as <- <- end; reflexivity.
    + cbn. repeat split; try discriminate.
  - cbn. repeat split; discriminate.
Qed.

Lemma create_bot_without_bot_witness :
  let env := mk_create_env (BotRefused 402 "quota exceeded") Sample.t0
                           Sample.t0 Sample.t0 in
  fst (Postgres.create_bot env Sample.standup_request Sample.fresh)
  = Ok (JsonError 402 "Failed to create bot" (Some "quota exceeded"))
  /\ db (snd (Postgres.create_bot env Sample.standup_request Sample.fresh))
     = empty_store.
Proof.
  cbn zeta.
  destruct (create_bot_without_bot
              (mk_create_env (BotRefused 402 "quota exceeded") Sample.t0
                             Sample.t0 Sample.t0)
              Sample.standup_request Sample.fresh)
    as (Hdb & _ & _ & Hrefused).
  - right. discriminate.
  - split; [|exact Hdb].
    exact (proj1 (Hrefused eq_refl 402 "quota exceeded" eq_refl)).
Defined.

(** X11. When Recall.ai delivers a bot id that is not stored yet, the block
    name fits VARCHAR(255) and client_id is absent or a BIGINT, both servers
    answer with the bot, the new block and its meeting record, and store
    exactly these two rows: the block under the next generated key, named
    after the request (or "Meeting <time>"), and the meeting record with the
    same key, the bot id, the URL and status "joining". *)
Theorem create_bot_succeeds env body w bot url user :
  CreateBot.meeting_url body = Some url ->
  url <> "" ->
  recall env = BotCreated (Some bot) ->
  (String.length (or_else (CreateBot.meeting_name body)
                          ("Meeting " ++ now_name env)) <= 255)%nat ->
  bigint_param (CreateBot.client_id body) = Some user ->
  existsb (fun m => (BlockMeetings.recall_bot_id m =? bot)%string)
          (block_meetings (db w)) = false ->
  existsb (fun m => Nat.eqb (BlockMeetings.block_id m) (uuid_gen (db w)))
          (block_meetings (db w)) = false ->
  let block :=
    Blocks.mk (uuid_gen (db w))
              (or_else (CreateBot.meeting_name body)
                       ("Meeting " ++ now_name env))
              (Some ("Meeting from " ++ url)) (Some "meeting")
              (Some "recall_bot") (now_block env) (now_block env) in
  let meeting :=
    BlockMeetings.mk (uuid_gen (db w)) bot url (Some "joining") user None
                     (now_meeting env) None (now_meeting env)
                     (now_meeting env) in
  let created :=
    mk_store (blocks (db w) ++ [block]) (block_meetings (db w) ++ [meeting])
             (block_attendees (db w)) (turns (db w)) (block_turns (db w))
             (S (uuid_gen (db w))) (block_attendees_id_seq (db w)) in
  fst (Postgres.create_bot env body w) = Ok (JsonCreated (Some bot) block meeting)
  /\ db (snd (Postgres.create_bot env body w)) = created
  /\ fst (Supabase.create_bot env body w) = Ok (JsonCreated (Some bot) block meeting)
  /\ db (snd (Supabase.create_bot env body w)) = created.
Proof.
  intros Hurl Hne Hrecall Hname Huser Hbot Hkey. cbn zeta.
  assert (Ht : truthy (CreateBot.meeting_url body) = true).
  { rewrite Hurl. cbn. apply String.eqb_neq in Hne. now rewrite Hne. }
  assert (Hlen : (255 <? String.length
                            (or_else (CreateBot.meeting_name body)
                                     ("Meeting " ++ now_name env)))%nat = false).
  { apply Nat.ltb_ge. exact Hname. }
  unfold Postgres.create_bot, Supabase.create_bot, try_catch, bind, query,
    Supabase.data_of, say.
  rewrite Ht, Hrecall. cbn [negb db console].
  unfold insert_block. rewrite Hlen. cbn [db console Blocks.block_id].
  unfold insert_meeting. rewrite Hurl, Huser.
  cbn [block_meetings]. rewrite Hkey, Hbot.
  unfold block_exists. cbn [blocks]. rewrite existsb_app.
  cbn [existsb Blocks.block_id]. rewrite Nat.eqb_refl, orb_true_r.
  cbn. repeat split.
Qed.

Lemma create_bot_succeeds_witness :
  map Blocks.name
      (blocks (db (snd (Postgres.create_bot (Sample.provisioned "bot-2")
                          (CreateBot.mk (Some "https://call/xyz")
                                        (Some (Str "12")) None)
                          Sample.standup))))
  = ["Standup"; "Meeting 2025-01-15T10:00:00.000Z"]
  /\ map BlockMeetings.invited_by_user_id
         (block_meetings
            (db (snd (Postgres.create_bot (Sample.provisioned "bot-2")
                        (CreateBot.mk (Some "https://call/xyz")
                                      (Some (Str "12")) None)
                        Sample.standup))))
     = [Some 7; Some 12].
Proof.
  pose proof (create_bot_succeeds (Sample.provisioned "bot-2")
                (CreateBot.mk (Some "https://call/xyz") (Some (Str "12")) None)
                Sample.standup "bot-2" "https://call/xyz" (Some 12)
                eq_refl) as H.
  destruct H as (_ & H & _);
    [discriminate|reflexivity|vm_compute; lia|reflexivity|reflexivity
    |reflexivity|].
  rewrite H. split; reflexivity.
Defined.

(** ** Properties kept by every handler *)

Section Keeps.

Variable I : store -> Prop.

Lemma keeps_ret {A} (a : A) : keeps I (ret a).
Proof. intros w H. exact H. Qed.

Lemma keeps_throw {A} (e : exn) : keeps I (@throw A e).
Proof. intros w H. exact H. Qed.

Lemma keeps_say (l : log_entry) : keeps I (say l).
Proof. intros w H. exact H. Qed.

Lemma keeps_bind {A B} (m : M A) (k : A -> M B) :
  keeps I m -> (forall a, keeps I (k a)) -> keeps I (bind m k).
Proof.
  intros Hm Hk w H. unfold bind. specialize (Hm w H).
  destruct (m w) as [[a|e] w']; cbn [snd] in *; [now apply Hk|assumption].
Qed.

Lemma keeps_try_catch {A} (body : M A) (handler : exn -> M A) :
  keeps I body -> (forall e, keeps I (handler e)) ->
  keeps I (try_catch body handler).
Proof.
  intros Hb Hh w H. unfold try_catch. specialize (Hb w H).
  destruct (body w) as [[a|e] w']; cbn [snd] in *; [assumption|now apply Hh].
Qed.

Lemma keeps_query {A} (op : store -> result A * store) :
  (forall s, I s -> I (snd (op s))) -> keeps I (query op).
Proof.
  intros Hop w H. unfold query. specialize (Hop (db w) H).
  destruct (op (db w)) as [r s']. exact Hop.
Qed.

Lemma keeps_data_of {A} (op : store -> result A * store) :
  (forall s, I s -> I (snd (op s))) -> keeps I (Supabase.data_of op).
Proof.
  intros Hop w H. unfold Supabase.data_of. specialize (Hop (db w) H).
  destruct (op (db w)) as [[a|e] s']; exact Hop.
Qed.

Hypothesis statements : kept_by_statements I.

Ltac keeps_step :=
  first
    [ apply keeps_ret | apply keeps_throw | apply keeps_say
    | apply keeps_try_catch; [|intros ?]
    | apply keeps_bind; [|intros ?]
    | apply keeps_query; intros ? ?
    | apply keeps_data_of; intros ? ?
    | match goal with
      | |- keeps _ (match ?x with _ => _ end) => destruct x
      | |- keeps _ (if ?x then _ else _) => destruct x
      end ].

Ltac statement :=
  first
    [ assumption
    | now apply (kept_insert_attendee I statements)
    | now apply (kept_insert_turn I statements)
    | now apply (kept_insert_block_turn I statements)
    | now apply (kept_insert_block I statements)
    | now apply (kept_insert_meeting I statements)
    | now apply (kept_update_meeting I statements)
    | now apply (kept_patch_meeting I statements)
    | now apply (kept_delete_block I statements) ].

Lemma keeps_build_update env event : keeps I (Postgres.build_update env event).
Proof. unfold Postgres.build_update. repeat keeps_step. Qed.

Lemma pg_on_message_keeps env data : keeps I (Postgres.on_message env data).
Proof.
  unfold Postgres.on_message, Postgres.getOrCreateAttendee.
  repeat keeps_step; cbn [snd select_block_id_by_bot select_attendees
                              select_next_order]; try statement.
  unfold select_next_order. destruct (_ <=? _); assumption.
Qed.

Lemma pg_webhook_keeps env event : keeps I (Postgres.webhook env event).
Proof.
  unfold Postgres.webhook.
  repeat first [apply keeps_build_update | keeps_step]; try statement.
Qed.

Lemma pg_create_bot_keeps env body : keeps I (Postgres.create_bot env body).
Proof. unfold Postgres.create_bot. repeat keeps_step; try statement. Qed.

Lemma sb_on_message_keeps env data : keeps I (Supabase.on_message env data).
Proof.
  unfold Supabase.on_message, Supabase.getOrCreateAttendee.
  repeat keeps_step; cbn [snd select_block_id_by_bot select_attendees];
    try statement.
Qed.

Lemma sb_webhook_keeps env event : keeps I (Supabase.webhook env event).
Proof.
  unfold Supabase.webhook.
  repeat first [apply keeps_build_update | keeps_step]; try statement.
Qed.

Lemma sb_create_bot_keeps env body : keeps I (Supabase.create_bot env body).
Proof.
  unfold Supabase.create_bot. repeat keeps_step; cbn [snd]; try statement.
Qed.

Lemma pg_serve_all_keeps rs w :
  I (db w) -> I (db (Postgres.serve_all rs w)).
Proof.
  revert w. induction rs as [|r rs IH]; intros w H; [exact H|].
  apply IH. destruct r; cbn [Postgres.serve].
  - now apply pg_on_message_keeps.
  - now apply pg_webhook_keeps.
  - now apply pg_create_bot_keeps.
Qed.

Lemma sb_serve_all_keeps rs w :
  I (db w) -> I (db (Supabase.serve_all rs w)).
Proof.
  revert w. induction rs as [|r rs IH]; intros w H; [exact H|].
  apply IH. destruct r; cbn [Supabase.serve].
  - now apply sb_on_message_keeps.
  - now apply sb_create_bot_keeps.
Qed.

End Keeps.

(** ** The statements keep the constraints *)

Lemma kept_by_statements_and (I J : store -> Prop) :
  kept_by_statements I -> kept_by_statements J ->
  kept_by_statements (fun s => I s /\ J s).
Proof.
  intros [i1 i2 i3 i4 i5 i6 i7 i8] [j1 j2 j3 j4 j5 j6 j7 j8].
  constructor; intros; split; intuition auto.
Qed.

Lemma NoDup_snoc {A} (l : list A) (x : A) :
  NoDup l -> ~ In x l -> NoDup (l ++ [x]).
Proof.
  intros Hl Hx. induction Hl as [|y l Hy Hl IH]; cbn.
  - constructor; [intros []|constructor].
  - constructor.
    + rewrite in_app_iff. cbn. intros [H|[H|[]]]; [auto|].
      subst. apply Hx. now left.
    + apply IH. intros H. apply Hx. now right.
Qed.

(** A DELETE keeps a key unique. *)
Lemma unique_key_after_delete {Row Key : Type} (key : Row -> Key)
  (kept : Row -> bool) (rows : list Row) :
  NoDup (map key rows) -> NoDup (map key (filter kept rows)).
Proof.
  intros H. induction rows as [|r rows IH]; cbn in *; [constructor|].
  apply NoDup_cons_iff in H as [Hr Hrows].
  destruct (kept r); cbn; [|now apply IH].
  apply NoDup_cons; [|now apply IH].
  intros Hin. apply Hr. apply in_map_iff in Hin as (z & Ez & Hz).
  apply in_map_iff. exists z. split; [assumption|].
  now apply filter_In in Hz.
Qed.

Lemma meetings_unique_ext (s s' : store) :
  block_meetings s' = block_meetings s ->
  meetings_unique s -> meetings_unique s'.
Proof. unfold meetings_unique. now intros ->. Qed.

Lemma meetings_unique_kept : kept_by_statements meetings_unique.
Proof.
  constructor.
  - intros now b n story s. apply meetings_unique_ext.
    apply (insert_attendee_frame now b n story s).
  - intros now p c src md ts cl s. apply meetings_unique_ext.
    apply (insert_turn_frame now p c src md ts cl s).
  - intros now b t order s H.
    destruct (insert_block_turn_cases now b t order s) as [E|[e E]];
      rewrite E; exact H.
  - intros now name description block_type created_by s.
    apply meetings_unique_ext.
    apply (insert_block_frame now name description block_type created_by s).
  - intros now b bot url invited status s [Hbot Hkey]. unfold insert_meeting.
    destruct bot as [bot|], url as [url|]; try (split; assumption).
    destruct (bigint_param invited); [|split; assumption].
    destruct (existsb _ _) eqn:Ekey; [split; assumption|].
    destruct (existsb _ _) eqn:Ebot in |- *; [split; assumption|].
    destruct (negb _); [split; assumption|].
    unfold meetings_unique. cbn [snd block_meetings].
    rewrite !map_app. cbn [map BlockMeetings.recall_bot_id BlockMeetings.block_id].
    split; apply NoDup_snoc; try assumption.
    + intros Hin. apply in_map_iff in Hin as (m & Em & Hm).
      assert (existsb (fun m => (BlockMeetings.recall_bot_id m =? bot)%string)
                      (block_meetings s) = true) as X.
      { apply existsb_exists. exists m. split; [assumption|].
        rewrite Em. apply String.eqb_refl. }
      congruence.
    + intros Hin. apply in_map_iff in Hin as (m & Em & Hm).
      assert (existsb (fun m => Nat.eqb (BlockMeetings.block_id m) b)
                      (block_meetings s) = true) as X.
      { apply existsb_exists. exists m. split; [assumption|].
        rewrite Em. apply Nat.eqb_refl. }
      congruence.
  - intros now bot u s [Hbot Hkey]. unfold meetings_unique.
    cbn [snd update_meeting block_meetings]. rewrite !map_map.
    split.
    + erewrite map_ext; [exact Hbot|].
      intros m. cbn. destruct (_ =? _)%string; reflexivity.
    + erewrite map_ext; [exact Hkey|].
      intros m. cbn. destruct (_ =? _)%string; reflexivity.
  - intros now bot u s [Hbot Hkey]. unfold meetings_unique.
    cbn [snd Supabase.patch_meeting block_meetings]. rewrite !map_map.
    split.
    + erewrite map_ext; [exact Hbot|].
      intros m. cbn. destruct (_ =? _)%string; reflexivity.
    + erewrite map_ext; [exact Hkey|].
      intros m. cbn. destruct (_ =? _)%string; reflexivity.
  - intros b s [Hbot Hkey]. unfold meetings_unique, delete_block.
    cbn [block_meetings]. split; now apply unique_key_after_delete.
Qed.

Lemma filter_filter_length {A} (p q : A -> bool) (l : list A) :
  (length (filter p (filter q l)) <= length (filter p l))%nat.
Proof.
  induction l as [|x l IH]; cbn; [lia|].
  destruct (q x), (p x) eqn:E; cbn; rewrite ?E; cbn; lia.
Qed.

Lemma attendees_unique_ext (s s' : store) :
  block_attendees s' = block_attendees s ->
  attendees_unique s -> attendees_unique s'.
Proof.
  intros E H b n. specialize (H b n). unfold attendees_named in *.
  now rewrite E.
Qed.

Lemma attendees_unique_kept : kept_by_statements attendees_unique.
Proof.
  constructor.
  - intros now b n story s. apply insert_attendee_unique.
  - intros now p c src md ts cl s. apply attendees_unique_ext.
    apply (insert_turn_frame now p c src md ts cl s).
  - intros now b t order s H.
    destruct (insert_block_turn_cases now b t order s) as [E|[e E]];
      rewrite E; exact H.
  - intros now name description block_type created_by s.
    apply attendees_unique_ext.
    apply (insert_block_frame now name description block_type created_by s).
  - intros now b bot url invited status s. apply attendees_unique_ext.
    apply (insert_meeting_frame now b bot url invited status s).
  - intros now bot u s. apply attendees_unique_ext. reflexivity.
  - intros now bot u s. apply attendees_unique_ext. reflexivity.
  - intros k s H b n. specialize (H b n).
    unfold attendees_named, delete_block in *. cbn [block_attendees].
    eapply Nat.le_trans; [apply filter_filter_length|exact H].
Qed.

Lemma block_exists_incl (s s' : store) (b : uuid) :
  incl (blocks s) (blocks s') ->
  block_exists b s = true -> block_exists b s' = true.
Proof.
  unfold block_exists. intros Hi H.
  apply existsb_exists in H as (x & Hx & E).
  apply existsb_exists. exists x. split; [now apply Hi|assumption].
Qed.

Lemma turn_exists_incl (s s' : store) (t : uuid) :
  incl (turns s) (turns s') ->
  turn_exists t s = true -> turn_exists t s' = true.
Proof.
  unfold turn_exists. intros Hi H.
  apply existsb_exists in H as (x & Hx & E).
  apply existsb_exists. exists x. split; [now apply Hi|assumption].
Qed.

(** When blocks and turns only grow, the references hold again as soon as
    every referencing row repeats the keys of an earlier row or passed the
    check of its INSERT. *)
Lemma references_step (s s' : store) :
  references_hold s ->
  incl (blocks s) (blocks s') ->
  incl (turns s) (turns s') ->
  (forall m, In m (block_meetings s') ->
             (exists m0, In m0 (block_meetings s)
                         /\ BlockMeetings.block_id m0 = BlockMeetings.block_id m)
             \/ block_exists (BlockMeetings.block_id m) s' = true) ->
  (forall a, In a (block_attendees s') ->
             In a (block_attendees s)
             \/ block_exists (BlockAttendees.block_id a) s' = true) ->
  (forall r, In r (block_turns s') ->
             In r (block_turns s)
             \/ (block_exists (BlockTurns.block_id r) s' = true
                 /\ turn_exists (BlockTurns.turn_id r) s' = true)) ->
  references_hold s'.
Proof.
  intros (Hm & Ha & Hr) Ib It Km Ka Kr.
  rewrite Forall_forall in Hm, Ha, Hr.
  repeat split; apply Forall_forall.
  - intros m Hin. destruct (Km m Hin) as [(m0 & Hin0 & E)|H]; [|exact H].
    rewrite <- E. eapply block_exists_incl; [exact Ib|]. now apply Hm.
  - intros a Hin. destruct (Ka a Hin) as [Hin0|H]; [|exact H].
    eapply block_exists_incl; [exact Ib|]. now apply Ha.
  - intros r Hin. destruct (Kr r Hin) as [Hin0|H]; [|exact H].
    destruct (Hr r Hin0) as [H1 H2]. split.
    + eapply block_exists_incl; [exact Ib|exact H1].
    + eapply turn_exists_incl; [exact It|exact H2].
Qed.

Lemma references_kept : kept_by_statements references_hold.
Proof.
  constructor.
  - intros now b n story s H. unfold insert_attendee.
    destruct n as [n|];
      [|eapply references_step; eauto using incl_refl; cbn; eauto].
    destruct (negb (block_exists b s)) eqn:Eb;
      [eapply references_step; eauto using incl_refl; cbn; eauto|].
    destruct (attendees_named b (Some n) s);
      [|eapply references_step; eauto using incl_refl; cbn; eauto].
    apply negb_false_iff in Eb.
    eapply references_step; eauto using incl_refl; cbn [snd block_meetings
      block_attendees block_turns]; eauto.
    intros a Hin. apply in_app_or in Hin as [Hin|[<-|[]]]; [now left|].
    right. exact Eb.
  - intros now p c src md ts cl s H. unfold insert_turn.
    destruct c as [c|];
      (eapply references_step;
       [exact H|apply incl_refl| |cbn; eauto|cbn; eauto|cbn; eauto]);
      cbn [snd turns]; [apply incl_appl|]; apply incl_refl.
  - intros now b t order s H. unfold insert_block_turn.
    destruct (negb (in_int4 order)); [exact H|].
    destruct (negb (block_exists b s)) eqn:Eb; [exact H|].
    destruct (negb (turn_exists t s)) eqn:Et; [exact H|].
    destruct (existsb _ _); [exact H|].
    apply negb_false_iff in Eb, Et.
    eapply references_step; eauto using incl_refl; cbn [snd block_meetings
      block_attendees block_turns]; eauto.
    intros r Hin. apply in_app_or in Hin as [Hin|[<-|[]]]; [now left|].
    right. split; assumption.
  - intros now name description block_type created_by s H. unfold insert_block.
    destruct (_ <? _)%nat;
      (eapply references_step;
       [exact H| |apply incl_refl|cbn; eauto|cbn; eauto|cbn; eauto]);
      cbn [snd blocks]; [|apply incl_appl]; apply incl_refl.
  - intros now b bot url invited status s H. unfold insert_meeting.
    destruct bot as [bot|], url as [url|]; try exact H.
    destruct (bigint_param invited); [|exact H].
    destruct (existsb _ _); [exact H|].
    destruct (existsb _ _); [exact H|].
    destruct (negb (block_exists b s)) eqn:Eb; [exact H|].
    apply negb_false_iff in Eb.
    eapply references_step; eauto using incl_refl; cbn [snd block_meetings
      block_attendees block_turns]; eauto.
    intros m Hin. apply in_app_or in Hin as [Hin|[<-|[]]]; [left; eauto|].
    right. exact Eb.
  - intros now bot u s H.
    eapply references_step; eauto using incl_refl; cbn [snd update_meeting
      block_meetings block_attendees block_turns]; eauto.
    intros m Hin. apply in_map_iff in Hin as (m0 & E & Hin). left.
    exists m0. split; [assumption|]. subst m.
    destruct (_ =? _)%string; reflexivity.
  - intros now bot u s H.
    eapply references_step; eauto using incl_refl;
      cbn [snd Supabase.patch_meeting block_meetings block_attendees
           block_turns]; eauto.
    intros m Hin. apply in_map_iff in Hin as (m0 & E & Hin). left.
    exists m0. split; [assumption|]. subst m.
    destruct (_ =? _)%string; reflexivity.
  - intros k s (Hm & Ha & Hr).
    assert (Keep : forall b, Nat.eqb b k = false ->
                             block_exists b s = true ->
                             block_exists b (delete_block k s) = true).
    { intros b Hb H. unfold block_exists in *. cbn [delete_block blocks].
      apply existsb_exists in H as (x & Hx & E).
      apply existsb_exists. exists x. split; [|assumption].
      apply filter_In. split; [assumption|].
      apply Nat.eqb_eq in E. rewrite E. now rewrite Hb. }
    rewrite Forall_forall in Hm, Ha, Hr.
    repeat split; apply Forall_forall; cbn [delete_block block_meetings
      block_attendees block_turns].
    + intros m Hin. apply filter_In in Hin as [Hin Hk].
      apply negb_true_iff in Hk. apply Keep; [assumption|now apply Hm].
    + intros a Hin. apply filter_In in Hin as [Hin Hk].
      apply negb_true_iff in Hk. apply Keep; [assumption|now apply Ha].
    + intros r Hin. apply filter_In in Hin as [Hin Hk].
      apply negb_true_iff in Hk. destruct (Hr r Hin) as [H1 H2]. split.
      * now apply Keep.
      * exact H2.
Qed.

Lemma schema_kept : kept_by_statements schema_holds.
Proof.
  unfold schema_holds.
  apply kept_by_statements_and; [apply meetings_unique_kept|].
  apply kept_by_statements_and;
    [apply attendees_unique_kept|apply references_kept].
Qed.

(** X12. Both servers keep the uniqueness constraints: if no two meeting
    records share a bot id or a block, and no two attendees of a block share
    a name, this still holds after any sequence of requests served by either
    server and after a Supabase webhook call. *)
Theorem uniqueness_kept rs rs' env event w :
  meetings_unique (db w) /\ attendees_unique (db w) ->
  let unique s := meetings_unique s /\ attendees_unique s in
  unique (db (Postgres.serve_all rs w))
  /\ unique (db (Supabase.serve_all rs' w))
  /\ unique (db (snd (Supabase.webhook env event w))).
Proof.
  intros H. cbn zeta.
  pose proof (kept_by_statements_and _ _ meetings_unique_kept
                attendees_unique_kept) as K.
  split; [|split].
  - now apply (pg_serve_all_keeps _ K).
  - now apply (sb_serve_all_keeps _ K).
  - now apply (sb_webhook_keeps _ K).
Qed.

Lemma uniqueness_kept_witness :
  NoDup (map BlockMeetings.recall_bot_id
             (block_meetings
                (db (Postgres.serve_all
                       [Postgres.CreateBot (Sample.provisioned "bot-1")
                                           Sample.standup_request;
                        Postgres.CreateBot (Sample.provisioned "bot-1")
                                           Sample.standup_request]
                       Sample.fresh)))).
Proof.
  refine (proj1 (proj1 (proj1 (uniqueness_kept _ [] 
                                 (mk_webhook_env Sample.t0 Sample.t0
                                                 TranscriptThrows Sample.t0)
                                 (Event.mk None None) Sample.fresh _)))).
  split; [split; constructor|]. intros b n. cbn. lia.
Defined.

(** X13. Both servers keep the references of the schema: if every meeting
    record, attendee and placement names a stored block and every placement
    a stored turn, this still holds after any sequence of requests served by
    either server, including the Supabase server's compensating delete with
    its cascade, and after a Supabase webhook call. *)
Theorem references_kept_by_servers rs rs' env event w :
  references_hold (db w) ->
  references_hold (db (Postgres.serve_all rs w))
  /\ references_hold (db (Supabase.serve_all rs' w))
  /\ references_hold (db (snd (Supabase.webhook env event w))).
Proof.
  intros H. split; [|split].
  - now apply (pg_serve_all_keeps _ references_kept).
  - now apply (sb_serve_all_keeps _ references_kept).
  - now apply (sb_webhook_keeps _ references_kept).
Qed.

Lemma references_kept_by_servers_witness :
  references_hold
    (db (Supabase.serve_all
           [Supabase.CreateBot (Sample.provisioned "bot-1")
                               Sample.standup_request;
            Supabase.Message (Sample.clock Sample.t1)
                             (Sample.says (Some "Let's start") None);
            Supabase.CreateBot (Sample.provisioned "bot-1")
                               Sample.standup_request]
           Sample.fresh)).
Proof.
  refine (proj1 (proj2 (references_kept_by_servers []  _
                          (mk_webhook_env Sample.t0 Sample.t0
                                          TranscriptThrows Sample.t0)
                          (Event.mk None None) Sample.fresh _))).
  repeat split; constructor.
Defined.

(** ** Turns and lifecycle notifications do not interfere *)

Lemma ignores_ret {A} (a : A) : ignores_meetings (ret a).
Proof. intros ms c w. split; reflexivity. Qed.

Lemma ignores_throw {A} (e : exn) : ignores_meetings (@throw A e).
Proof. intros ms c w. split; reflexivity. Qed.

Lemma ignores_say (l : log_entry) : ignores_meetings (say l).
Proof. intros ms c w. split; reflexivity. Qed.

Lemma ignores_bind {A B} (m : M A) (k : A -> M B) :
  ignores_meetings m -> (forall a, ignores_meetings (k a)) ->
  ignores_meetings (bind m k).
Proof.
  intros Hm Hk ms c w. unfold bind.
  destruct (Hm ms c w) as [Hr Hs].
  destruct (m (mk_world (with_meetings ms (db w)) c)) as [r' w1'].
  destruct (m w) as [r w1]. cbn [fst snd] in *. subst r'.
  destruct r as [a|e]; [|split; [reflexivity|exact Hs]].
  rewrite <- (world_eta w1'), Hs. apply Hk.
Qed.

Lemma ignores_try_catch {A} (body : M A) (handler : exn -> M A) :
  ignores_meetings body -> (forall e, ignores_meetings (handler e)) ->
  ignores_meetings (try_catch body handler).
Proof.
  intros Hb Hh ms c w. unfold try_catch.
  destruct (Hb ms c w) as [Hr Hs].
  destruct (body (mk_world (with_meetings ms (db w)) c)) as [r' w1'].
  destruct (body w) as [r w1]. cbn [fst snd] in *. subst r'.
  destruct r as [a|e]; [split; [reflexivity|exact Hs]|].
  rewrite <- (world_eta w1'), Hs. apply Hh.
Qed.

Lemma ignores_query {A} (op : store -> result A * store) :
  (forall ms s,
      op (with_meetings ms s) = (fst (op s), with_meetings ms (snd (op s)))) ->
  ignores_meetings (query op).
Proof.
  intros Hop ms c w. unfold query. cbn [db console]. rewrite Hop.
  destruct (op (db w)) as [r s']. split; reflexivity.
Qed.

Lemma pg_placing_ignores_meetings env t b :
  ignores_meetings (pg_placing env t b).
Proof.
  unfold pg_placing, Postgres.getOrCreateAttendee.
  repeat first
    [ apply ignores_ret
    | apply ignores_bind; [|intros ?]
    | match goal with
      | |- ignores_meetings (match ?x with _ => _ end) => destruct x
      end
    | apply ignores_query; intros ms s ].
  - reflexivity.
  - unfold insert_attendee. cbn [with_meetings blocks block_attendees
      block_attendees_id_seq block_exists attendees_named].
    destruct (Transcript.speaker t) as [n|]; [|reflexivity].
    unfold block_exists, attendees_named. cbn [blocks block_attendees].
    destruct (negb _); [reflexivity|].
    destruct (filter _ _); reflexivity.
  - unfold insert_turn. destruct (Transcript.text t); reflexivity.
  - unfold select_next_order, positions. cbn [with_meetings block_turns].
    destruct (_ <=? _); reflexivity.
  - unfold insert_block_turn, block_exists, turn_exists.
    cbn [with_meetings blocks turns block_turns].
    repeat match goal with
           | |- context [if ?c then _ else _] => destruct c; [reflexivity|]
           end.
    reflexivity.
Qed.

Lemma pg_on_message_unfold env t w :
  Postgres.on_message env (Json t) w
  = match map BlockMeetings.block_id
              (select_meeting_by_bot (Transcript.bot_id t) (db w)) with
    | [] =>
        (Ok tt,
         mk_world (db w)
                  (console w ++ [console_log "Received transcript:";
                                 console_error "No meeting found for bot:"]))
    | b :: _ =>
        try_catch (pg_placing env t b)
          (fun _ => say (console_error "Error processing transcript:"))
          (mk_world (db w) (console w ++ [console_log "Received transcript:"]))
    end.
Proof.
  unfold Postgres.on_message, try_catch.
  unfold bind at 1. cbn [say].
  unfold bind at 1. unfold query at 1, select_block_id_by_bot.
  cbn [db console].
  destruct (map _ _) as [|b rest]; [|reflexivity].
  cbn. now rewrite <- app_assoc.
Qed.

Lemma select_ids_of_rewritten (g : BlockMeetings.row -> BlockMeetings.row)
  (bot : option string) (s : store) :
  (forall m, BlockMeetings.recall_bot_id (g m) = BlockMeetings.recall_bot_id m
             /\ BlockMeetings.block_id (g m) = BlockMeetings.block_id m) ->
  map BlockMeetings.block_id
      (select_meeting_by_bot bot (with_meetings (map g (block_meetings s)) s))
  = map BlockMeetings.block_id (select_meeting_by_bot bot s).
Proof.
  intros Hg. unfold select_meeting_by_bot. destruct bot as [b|]; [|reflexivity].
  cbn [with_meetings block_meetings].
  induction (block_meetings s) as [|m l IH]; cbn; [reflexivity|].
  destruct (Hg m) as [-> Hk].
  destruct (_ =? _)%string; cbn; [rewrite Hk|]; now rewrite IH.
Qed.

(** A socket message does the same to a store whose meeting records were
    rewritten without touching their bot ids and blocks. *)
Lemma pg_on_message_after_rewrite env data g w c :
  (forall m, BlockMeetings.recall_bot_id (g m) = BlockMeetings.recall_bot_id m
             /\ BlockMeetings.block_id (g m) = BlockMeetings.block_id m) ->
  db (snd (Postgres.on_message env data
             (mk_world (with_meetings (map g (block_meetings (db w))) (db w)) c)))
  = with_meetings (map g (block_meetings (db w)))
                  (db (snd (Postgres.on_message env data w))).
Proof.
  intros Hg. destruct data as [|t]; [reflexivity|].
  rewrite !pg_on_message_unfold. cbn [db console].
  rewrite (select_ids_of_rewritten g _ _ Hg).
  destruct (map _ _) as [|b rest]; [reflexivity|].
  exact (proj2
           (ignores_try_catch _ _ (pg_placing_ignores_meetings env t b)
              (fun _ => ignores_say _)
              (map g (block_meetings (db w)))
              (c ++ [console_log "Received transcript:"])%list
              (mk_world (db w)
                        (console w ++ [console_log "Received transcript:"])))).
Qed.

Lemma pg_on_message_meetings env data w :
  block_meetings (db (snd (Postgres.on_message env data w)))
  = block_meetings (db w).
Proof.
  pose proof (pg_on_message_after_rewrite env data (fun m => m) w (console w)) as H.
  rewrite map_id in H. unfold with_meetings at 1 in H.
  rewrite store_eta, world_eta in H.
  rewrite H by (intros; split; reflexivity). reflexivity.
Qed.

(** X14. On the PostgreSQL server a socket message and a lifecycle
    notification can be served in either order: the resulting store is the
    same, since the message only reads the bot id and the block of a meeting
    record and the notification rewrites neither. *)
Theorem message_and_webhook_commute env_m data env_h event w :
  db (Postgres.serve (Postgres.Message env_m data)
        (Postgres.serve (Postgres.Webhook env_h event) w))
  = db (Postgres.serve (Postgres.Webhook env_h event)
          (Postgres.serve (Postgres.Message env_m data) w)).
Proof.
  cbn [Postgres.serve].
  pose proof (pg_on_message_meetings env_m data w) as Hm.
  destruct (pg_webhook_runs env_h event w) as [logs ->].
  destruct (pg_webhook_runs env_h event (snd (Postgres.on_message env_m data w)))
    as [logs' ->].
  cbn [snd db].
  assert (Same : forall c,
             db (snd (Postgres.on_message env_m data (mk_world (db w) c)))
             = db (snd (Postgres.on_message env_m data w))).
  { intros c.
    pose proof (pg_on_message_after_rewrite env_m data (fun m => m) w c) as H.
    rewrite map_id in H. unfold with_meetings at 1 in H.
    rewrite store_eta in H. rewrite H by (intros; split; reflexivity).
    rewrite <- Hm. unfold with_meetings. apply store_eta. }
  destruct (Event.bot_id event) as [bot|]; [|apply Same].
  destruct (truthy (Some bot)); [|apply Same].
  cbn [snd update_meeting].
  rewrite Hm.
  apply (pg_on_message_after_rewrite env_m data
           (fun m => if (BlockMeetings.recall_bot_id m =? bot)%string
                     then update_updated_at_column (now_trigger env_h)
                            (set_fields (lifecycle_update env_h event) m)
                     else m)).
  intros m. destruct (_ =? _)%string; split; reflexivity.
Qed.

(** ** The speaker registry *)

Lemma attendees_named_sound b n s a :
  In a (attendees_named b n s) ->
  BlockAttendees.block_id a = b /\ n = Some (BlockAttendees.name a)
  /\ In a (block_attendees s).
Proof.
  unfold attendees_named. destruct n as [n|]; [|intros []].
  intros H. apply filter_In in H as [Hin H].
  apply andb_true_iff in H as [Hb Hn].
  apply Nat.eqb_eq in Hb. apply String.eqb_eq in Hn. subst. auto.
Qed.

Lemma pg_getOrCreateAttendee_head now b n w a w' :
  Postgres.getOrCreateAttendee now b n w = (Ok a, w') ->
  exists rest, attendees_named b n (db w') = a :: rest.
Proof.
  unfold Postgres.getOrCreateAttendee, bind, query, select_attendees, ret.
  cbn [db console].
  destruct (attendees_named b n (db w)) as [|a0 rest] eqn:E.
  - unfold insert_attendee. cbn [db console].
    destruct n as [n|]; [|intros H; cbn in H; discriminate H].
    destruct (negb (block_exists b (db w)));
      [intros H; cbn in H; discriminate H|].
    rewrite E. intros H. cbn in H. injection H as <- <-.
    exists []. erewrite attendees_named_snoc by reflexivity.
    rewrite E. cbn. now rewrite Nat.eqb_refl, String.eqb_refl.
  - intros H. injection H as <- <-. cbn [db]. now exists rest.
Qed.

(** X15. Whatever the PostgreSQL getOrCreateAttendee returns is a stored
    attendee of the requested block with the requested name, and it is the
    row a lookup of that name in that block finds first afterwards. *)
Theorem pg_resolved_attendee now b n w a w' :
  Postgres.getOrCreateAttendee now b n w = (Ok a, w') ->
  BlockAttendees.block_id a = b
  /\ n = Some (BlockAttendees.name a)
  /\ In a (block_attendees (db w'))
  /\ exists rest, attendees_named b n (db w') = a :: rest.
Proof.
  intros H. destruct (pg_getOrCreateAttendee_head now b n w a w' H) as [rest E].
  destruct (attendees_named_sound b n (db w') a) as (H1 & H2 & H3).
  - rewrite E. now left.
  - repeat split; try assumption. now exists rest.
Qed.

Lemma pg_resolved_attendee_witness :
  exists rest,
    attendees_named 0%nat (Some "Dana")
      (db (snd (Postgres.getOrCreateAttendee Sample.t1 0%nat (Some "Dana")
                  Sample.standup)))
    = Sample.dana :: rest.
Proof.
  refine (proj2 (proj2 (proj2
            (pg_resolved_attendee Sample.t1 0%nat (Some "Dana") Sample.standup
               Sample.dana
               (snd (Postgres.getOrCreateAttendee Sample.t1 0%nat (Some "Dana")
                       Sample.standup))
               _)))).
  vm_compute. reflexivity.
Defined.



(** ** Two turns in a row *)

Lemma placements_sound_after b s order now :
  placements_sound s ->
  in_int4 order = true ->
  forall bl bm ba tu seq,
    placements_sound
      (mk_store bl bm ba tu
                (block_turns s ++ [BlockTurns.mk b (uuid_gen s) order now])
                (S (uuid_gen s)) seq).
Proof.
  unfold placements_sound. intros H Ho bl bm ba tu seq. cbn [block_turns uuid_gen].
  apply Forall_app. split.
  - eapply Forall_impl; [|exact H]. cbn. intros r [Hr Hi]. split; [lia|exact Hi].
  - constructor; [|constructor]. cbn. split; [lia|exact Ho].
Qed.

(** X17. Two turns of one speaker served one after the other on the
    PostgreSQL server: both are attributed to the same attendee of the
    session, who is registered at most once, and they are placed at the next
    two positions, max+1 and max+2. *)
Theorem two_turns_in_a_row env1 env2 t1 t2 w b rest n c1 c2 :
  map BlockMeetings.block_id
      (select_meeting_by_bot (Transcript.bot_id t1) (db w)) = b :: rest ->
  Transcript.bot_id t2 = Transcript.bot_id t1 ->
  Transcript.speaker t1 = Some n -> Transcript.speaker t2 = Some n ->
  Transcript.text t1 = Some c1 -> Transcript.text t2 = Some c2 ->
  block_exists b (db w) = true ->
  placements_sound (db w) ->
  coalesce0 (sql_max (positions b (db w))) + 1 < int4_max ->
  let w2 := Postgres.serve_all
              [Postgres.Message env1 (Json t1); Postgres.Message env2 (Json t2)]
              w in
  let top := coalesce0 (sql_max (positions b (db w))) in
  positions b (db w2) = (positions b (db w) ++ [top + 1; top + 2])%list
  /\ (exists a,
        BlockAttendees.block_id a = b /\ BlockAttendees.name a = n
        /\ In a (block_attendees (db w2))
        /\ map Turns.participant_id (turns (db w2))
           = (map Turns.participant_id (turns (db w))
              ++ [Some (BlockAttendees.id a); Some (BlockAttendees.id a)])%list)
  /\ (length (block_attendees (db w2))
      <= S (length (block_attendees (db w))))%nat.
Proof.
  intros Hm Hbot Hs1 Hs2 Hc1 Hc2 Hb Hp Ho. cbn zeta.
  cbn [Postgres.serve_all fold_left Postgres.serve].
  destruct (pg_on_message_appends env1 t1 w b rest n c1 Hm Hs1 Hc1 Hb Hp)
    as (a & w1 & Ha & E1); [lia|].
  destruct (pg_getOrCreateAttendee_head _ _ _ _ _ _ Ha) as [more Hhead].
  destruct (pg_getOrCreateAttendee_grows (now_attendee env1) b (Some n)
              (mk_world (db w) (console w ++ [console_log "Received transcript:"])))
    as (added & Hadd & Hlen & _).
  rewrite Ha in Hadd. cbn [snd db] in Hadd.
  rewrite E1. cbn [snd].
  set (top := coalesce0 (sql_max (positions b (db w)))) in *.
  match goal with
  | |- context [Postgres.on_message env2 (Json t2) ?W] => set (W1 := W)
  end.
  assert (Hpos1 : positions b (db W1) = (positions b (db w) ++ [top + 1])%list).
  { subst W1. cbn [db]. erewrite positions_snoc by reflexivity. cbn.
    now rewrite Nat.eqb_refl. }
  assert (Hmax1 : coalesce0 (sql_max (positions b (db W1))) = top + 1).
  { rewrite Hpos1.
    rewrite (sql_max_snoc (positions b (db w)) (top + 1) (next_above_all _)).
    reflexivity. }
  assert (Hn1 : attendees_named b (Some n) (db W1) = a :: more).
  { rewrite <- Hhead. reflexivity. }
  destruct (pg_on_message_appends env2 t2 W1 b rest n c2) as (a2 & w2 & Ha2 & E2).
  - rewrite Hbot. exact Hm.
  - exact Hs2.
  - exact Hc2.
  - exact Hb.
  - subst W1. cbn [db]. apply placements_sound_after; [exact Hp|].
    apply next_in_int4; [exact Hp|]. fold top. lia.
  - rewrite Hmax1. lia.
  - rewrite (pg_getOrCreateAttendee_found (now_attendee env2) b (Some n) _ a more)
      in Ha2 by exact Hn1.
    injection Ha2 as <- <-.
    rewrite E2. cbn [snd db turns block_turns block_attendees].
    split; [|split].
    + erewrite positions_snoc by reflexivity. cbn [BlockTurns.block_id
        BlockTurns.sequence_order]. rewrite Nat.eqb_refl.
      fold (positions b (db W1)). rewrite Hmax1, Hpos1, <- app_assoc. cbn.
      do 3 f_equal. lia.
    + exists a.
      destruct (attendees_named_sound b (Some n) (db w1) a) as (H1 & H2 & H3);
        [rewrite Hhead; now left|].
      injection H2 as H2. subst W1. cbn [db turns block_attendees].
      repeat split; auto.
      rewrite !map_app, <- app_assoc. reflexivity.
    + subst W1. cbn [db block_attendees]. rewrite Hadd, length_app. lia.
Qed.

Lemma two_turns_in_a_row_witness :
  let w2 := Postgres.serve_all
              [Postgres.Message (Sample.clock Sample.t1)
                 (Sample.says (Some "Let's start") None);
               Postgres.Message (Sample.clock Sample.t2)
                 (Sample.says (Some "Agenda first") None)]
              Sample.standup in
  positions 0%nat (db w2) = [1; 2]
  /\ block_attendees (db w2) = [Sample.dana].
Proof.
  cbn zeta. split; [|vm_compute; reflexivity].
  refine (proj1 (two_turns_in_a_row (Sample.clock Sample.t1)
                   (Sample.clock Sample.t2)
                   (Transcript.mk (Some "bot-1") (Some "Dana")
                                  (Some "Let's start") None None)
                   (Transcript.mk (Some "bot-1") (Some "Dana")
                                  (Some "Agenda first") None None)
                   Sample.standup 0%nat [] "Dana" "Let's start" "Agenda first"
                   eq_refl eq_refl eq_refl eq_refl eq_refl eq_refl eq_refl _ _)).
  - constructor.
  - vm_compute. reflexivity.
Defined.

(** ** The data migration *)

Lemma stage_all clock rows u0 k :
  NoDup (map Migration.s_block_id u0) ->
  let u := fst (fold_left (Migration.stage clock) rows (u0, k)) in
  NoDup (map Migration.s_block_id u)
  /\ (forall id, In id (map Migration.s_block_id u)
                 <-> In id (map Migration.s_block_id u0)
                     \/ In id (map Migration.block_id rows))
  /\ (forall e, In e u ->
        In e u0
        \/ (~ In (Migration.s_block_id e) (map Migration.s_block_id u0)
            /\ exists before row after,
                 rows = (before ++ row :: after)%list
                 /\ Migration.block_id row = Migration.s_block_id e
                 /\ ~ In (Migration.s_block_id e)
                         (map Migration.block_id before)
                 /\ Migration.s_name e = Migration.block_name row
                 /\ Migration.s_block_type e
                    = or_else (Migration.block_type row) "session"
                 /\ Migration.s_description e
                    = "Migrated block: "
                      ++ Migration.spliced (Migration.block_name row))).
Proof.
  revert u0 k. induction rows as [|r rows IH]; intros u0 k Hu; cbn zeta.
  - cbn. repeat split; auto; tauto.
  - cbn [fold_left].
    destruct (existsb (fun e => Nat.eqb (Migration.s_block_id e)
                                        (Migration.block_id r)) u0) eqn:E.
    + assert (St : Migration.stage clock (u0, k) r = (u0, k)).
      { unfold Migration.stage. now rewrite E. }
      rewrite St.
      destruct (IH u0 k Hu) as (H1 & H2 & H3). cbn zeta in *.
      apply existsb_exists in E as (e0 & He0 & Eq). apply Nat.eqb_eq in Eq.
      split; [exact H1|]. split.
      * intros id. rewrite H2. cbn [map In].
        split; [tauto|]. intros [H|[H|H]]; auto.
        left. subst id. rewrite <- Eq. now apply in_map.
      * intros e He.
        destruct (H3 e He)
          as [H|(Hnew & before & row & after & -> & Hid & Hn & Hrest)];
          [now left|].
        right. split; [exact Hnew|].
        exists (r :: before), row, after. split; [reflexivity|].
        split; [exact Hid|]. split; [|exact Hrest].
        cbn [map In]. intros [H|H]; [|now apply Hn].
        apply Hnew. rewrite <- H, <- Eq. now apply in_map.
    + assert (Hfresh : ~ In (Migration.block_id r)
                            (map Migration.s_block_id u0)).
      { intros Hin. apply in_map_iff in Hin as (e0 & Eq & He0).
        assert (existsb (fun e => Nat.eqb (Migration.s_block_id e)
                                          (Migration.block_id r)) u0 = true) as X.
        { apply existsb_exists. exists e0. split; [assumption|].
          rewrite Eq. apply Nat.eqb_refl. }
        congruence. }
      assert (St : Migration.stage clock (u0, k) r
                   = ((u0 ++ [Migration.mk_staged (Migration.block_id r)
                                (Migration.block_name r)
                                (or_else (Migration.block_type r) "session")
                                ("Migrated block: "
                                 ++ Migration.spliced (Migration.block_name r))
                                (clock k) (clock (S k))])%list,
                      S (S k))).
      { unfold Migration.stage. now rewrite E. }
      rewrite St.
      match goal with
      | |- context [fold_left _ rows (?u1, ?k1)] =>
          destruct (IH u1 k1) as (H1 & H2 & H3)
      end.
      { rewrite map_app. cbn. now apply NoDup_snoc. }
      cbn zeta in *. split; [exact H1|]. split.
      * intros id. rewrite H2, map_app, in_app_iff. cbn. tauto.
      * intros e He.
        destruct (H3 e He)
          as [H|(Hnew & before & row & after & -> & Hid & Hn & Hrest)].
        -- apply in_app_or in H as [H|[<-|[]]]; [now left|].
           right. split; [exact Hfresh|].
           exists [], r, rows. cbn. repeat split; auto.
        -- rewrite map_app, in_app_iff in Hnew. cbn in Hnew.
           right. split; [tauto|].
           exists (r :: before), row, after. split; [reflexivity|].
           split; [exact Hid|]. split; [|exact Hrest].
           cbn [map In]. intros [H|H]; [|now apply Hn]. tauto.
Qed.


(** *** One upsert *)

Lemma block_exists_in (b : uuid) (s : store) :
  block_exists b s = true <-> In b (map Blocks.block_id (blocks s)).
Proof.
  unfold block_exists. rewrite existsb_exists, in_map_iff.
  split; intros (x & H1 & H2); exists x.
  - apply Nat.eqb_eq in H2. auto.
  - subst b. split; [assumption|apply Nat.eqb_refl].
Qed.

(** An entry that breaks a constraint is rejected and nothing is written. *)
Lemma upsert_block_rejects now e s :
  Migration.acceptable e = false ->
  exists err, Migration.upsert_block now e s = (Throw err, s).
Proof.
  unfold Migration.acceptable, Migration.upsert_block.
  destruct (Migration.constraints _ _) as [[name block_type]|err];
    [discriminate|eauto].
Qed.

(** Any other entry is written: over the rows of its block id when there
    are some, as a new last row when there are none. *)
Lemma upsert_block_accepts now e s :
  Migration.acceptable e = true ->
  exists s',
    Migration.upsert_block now e s = (Ok tt, s')
    /\ same_but_blocks s s'
    /\ (exists added,
          map Blocks.block_id (blocks s')
          = (map Blocks.block_id (blocks s) ++ added)%list
          /\ (added = [] /\ block_exists (Migration.s_block_id e) s = true
              \/ added = [Migration.s_block_id e]
                 /\ block_exists (Migration.s_block_id e) s = false))
    /\ (forall b, Blocks.block_id b <> Migration.s_block_id e ->
                  In b (blocks s') <-> In b (blocks s))
    /\ (exists b, In b (blocks s')
                  /\ Blocks.block_id b = Migration.s_block_id e)
    /\ (forall b, In b (blocks s') ->
                  Blocks.block_id b = Migration.s_block_id e ->
                  Migration.imported e b).
Proof.
  unfold Migration.acceptable, Migration.upsert_block, Migration.imported.
  destruct (Migration.constraints _ _) as [[name block_type]|err];
    [intros _|discriminate].
  destruct (block_exists (Migration.s_block_id e) s) eqn:Ex;
    eexists; (split; [reflexivity|]); cbn [blocks block_meetings block_attendees
      turns block_turns uuid_gen block_attendees_id_seq];
    (split; [repeat split|]).
  - split; [|split; [|split]].
    + exists []. split; [|left; auto]. rewrite app_nil_r, map_map.
      apply map_ext_in. intros b _.
      destruct (Nat.eqb _ _); reflexivity.
    + intros b Hb. rewrite in_map_iff. split.
      * intros (b0 & E & Hin).
        destruct (Nat.eqb (Blocks.block_id b0) _) eqn:Eq.
        -- apply Nat.eqb_eq in Eq. subst b. cbn in Hb. congruence.
        -- now subst b0.
      * intros Hin. exists b. split; [|assumption].
        apply Nat.eqb_neq in Hb. now rewrite Hb.
    + apply block_exists_in, in_map_iff in Ex as (b0 & E & Hin).
      eexists. split; [apply in_map; exact Hin|].
      rewrite E, Nat.eqb_refl. reflexivity.
    + intros b Hin Hb. apply in_map_iff in Hin as (b0 & E & Hin).
      destruct (Nat.eqb (Blocks.block_id b0) _) eqn:Eq.
      * subst b. exists name, block_type. now repeat split.
      * apply Nat.eqb_neq in Eq. congruence.
  - split; [|split; [|split]].
    + exists [Migration.s_block_id e]. split; [|right; auto].
      now rewrite map_app.
    + intros b Hb. rewrite in_app_iff. cbn. split; [|tauto].
      intros [H0|[<-|[]]]; [assumption|]. now cbn in Hb.
    + eexists. split; [apply in_or_app; right; left; reflexivity|reflexivity].
    + intros b Hin Hb. apply in_app_or in Hin as [Hin|[<-|[]]].
      * assert (block_exists (Migration.s_block_id e) s = true); [|congruence].
        apply block_exists_in. rewrite <- Hb. now apply in_map.
      * exists name, block_type. now repeat split.
Qed.

(** *** The import loop *)

Lemma same_but_blocks_trans s1 s2 s3 :
  same_but_blocks s1 s2 -> same_but_blocks s2 s3 -> same_but_blocks s1 s3.
Proof.
  unfold same_but_blocks. intros (A1 & A2 & A3 & A4 & A5 & A6)
    (B1 & B2 & B3 & B4 & B5 & B6). repeat split; congruence.
Qed.

(** The loop writes the entries in order up to the first one that is
    rejected: [done] are the entries written, [rest] the ones never sent. *)
Lemma import_blocks_runs now es : forall i w,
  NoDup (map Migration.s_block_id es) ->
  exists done rest r s',
    es = (done ++ rest)%list
    /\ Forall (fun e => Migration.acceptable e = true) done
    /\ (rest = [] /\ r = Ok tt
        \/ exists e rest' err,
             rest = e :: rest' /\ Migration.acceptable e = false
             /\ r = Throw err)
    /\ Migration.import_blocks now i es w = (r, mk_world s' (console w))
    /\ same_but_blocks (db w) s'
    /\ (exists added,
          map Blocks.block_id (blocks s')
          = (map Blocks.block_id (blocks (db w)) ++ added)%list
          /\ incl added (map Migration.s_block_id done)
          /\ forall id, In id added -> block_exists id (db w) = false)
    /\ (NoDup (map Blocks.block_id (blocks (db w))) ->
        NoDup (map Blocks.block_id (blocks s')))
    /\ (forall b, ~ In (Blocks.block_id b) (map Migration.s_block_id done) ->
                  In b (blocks s') <-> In b (blocks (db w)))
    /\ (forall e, In e done ->
          (exists b, In b (blocks s')
                     /\ Blocks.block_id b = Migration.s_block_id e)
          /\ forall b, In b (blocks s') ->
                       Blocks.block_id b = Migration.s_block_id e ->
                       Migration.imported e b).
Proof.
  induction es as [|e es IH]; intros i w Hnd.
  - exists [], [], (Ok tt), (db w). cbn [Migration.import_blocks ret].
    rewrite world_eta.
    split; [reflexivity|]. split; [constructor|]. split; [left; auto|].
    split; [reflexivity|]. split; [repeat split|].
    split; [|split; [|split]]; auto.
    + exists []. rewrite app_nil_r. repeat split; [apply incl_refl|].
      intros id [].
    + intros b _. reflexivity.
    + intros e0 [].
  - cbn [Migration.import_blocks]. unfold bind, query.
    destruct (Migration.acceptable e) eqn:Acc.
    + destruct (upsert_block_accepts (now i) e (db w) Acc)
        as (s1 & -> & Hs1 & (a & Hids & Ha) & Hother & Hhas & Himp).
      cbn [map] in Hnd. apply NoDup_cons_iff in Hnd as [Hfresh Hnd].
      destruct (IH (S i) (mk_world s1 (console w)) Hnd)
        as (done & rest & r & s' & -> & Hacc & Hend & -> & Hs' & (a' & Hids' & Hin' & Hnew')
            & Hnd' & Hother' & Hdone).
      cbn [db console] in *.
      exists (e :: done), rest, r, s'.
      split; [reflexivity|]. split; [now constructor|]. split; [exact Hend|].
      split; [reflexivity|].
      split; [eapply same_but_blocks_trans; eassumption|].
      rewrite map_app, in_app_iff in Hfresh.
      split; [|split; [|split]].
      * exists (a ++ a')%list. rewrite Hids', Hids, app_assoc.
        split; [reflexivity|]. split.
        -- intros id Hid. apply in_app_or in Hid as [Hid|Hid].
           ++ left. destruct Ha as [[-> _]|[-> _]]; [destruct Hid|].
              destruct Hid as [<-|[]]. reflexivity.
           ++ right. now apply Hin'.
        -- intros id Hid. apply in_app_or in Hid as [Hid|Hid].
           ++ destruct Ha as [[-> _]|[-> Hno]]; [destruct Hid|].
              destruct Hid as [<-|[]]. exact Hno.
           ++ specialize (Hnew' id Hid).
              destruct (block_exists id (db w)) eqn:Ex; [|reflexivity].
              apply block_exists_in in Ex.
              assert (block_exists id s1 = true); [|congruence].
              apply block_exists_in. rewrite Hids. apply in_or_app. now left.
      * intros H0. apply Hnd'. rewrite Hids.
        destruct Ha as [[-> _]|[-> Hno]]; [now rewrite app_nil_r|].
        apply NoDup_snoc; [assumption|].
        intros Hin. apply block_exists_in in Hin. congruence.
      * intros b Hb. cbn [map In] in Hb.
        rewrite Hother' by tauto. apply Hother.
        intros Eq. apply Hb. now left.
      * intros e0 [<-|He0]; [|now apply Hdone].
        split.
        -- destruct Hhas as (b & Hb & Eb). exists b. split; [|exact Eb].
           apply Hother'; [|exact Hb]. rewrite Eb. tauto.
        -- intros b Hb Eb. apply Himp; [|exact Eb].
           apply Hother'; [|exact Hb]. rewrite Eb. tauto.
    + destruct (upsert_block_rejects (now i) e (db w) Acc) as (err & ->).
      exists [], (e :: es), (Throw err), (db w).
      split; [reflexivity|]. split; [constructor|].
      split; [right; exists e, es, err; auto|].
      split; [reflexivity|]. split; [repeat split|].
      split; [|split; [|split]]; auto.
      * exists []. rewrite app_nil_r. repeat split; [apply incl_refl|].
        intros id [].
      * intros b _. reflexivity.
      * intros e0 [].
Qed.

(** *** The staged entries *)

(** The first element of a list with a given property is unique. *)
Lemma first_split_unique {A} (P : A -> Prop) (b1 b2 : list A) x1 a1 x2 a2 :
  (b1 ++ x1 :: a1 = b2 ++ x2 :: a2)%list ->
  Forall (fun y => ~ P y) b1 -> P x1 ->
  Forall (fun y => ~ P y) b2 -> P x2 ->
  b1 = b2 /\ x1 = x2 /\ a1 = a2.
Proof.
  revert b2. induction b1 as [|y b1 IH]; intros [|z b2] E H1 P1 H2 P2;
    cbn in E; injection E as E1 E2.
  - now subst.
  - subst. inversion H2; subst. contradiction.
  - subst. inversion H1; subst. contradiction.
  - subst z. inversion H1; inversion H2; subst.
    destruct (IH b2 E2) as (-> & -> & ->); auto.
Qed.

(** Staging only ever appends. *)
Lemma stage_extends clock rows : forall u0 k,
  exists ext, fst (fold_left (Migration.stage clock) rows (u0, k))
              = (u0 ++ ext)%list.
Proof.
  induction rows as [|r rows IH]; intros u0 k; cbn [fold_left].
  - exists []. now rewrite app_nil_r.
  - unfold Migration.stage at 2.
    destruct (existsb _ u0); [apply IH|].
    destruct (IH (u0 ++ [Migration.mk_staged (Migration.block_id r)
                           (Migration.block_name r)
                           (or_else (Migration.block_type r) "session")
                           ("Migrated block: "
                            ++ Migration.spliced (Migration.block_name r))
                           (clock k) (clock (S k))])%list (S (S k)))
      as (ext & ->).
    rewrite <- app_assoc. eauto.
Qed.

(** The clock decides nothing but the two timestamps of an entry. *)
Lemma stage_same_entries clock clock' rows : forall u u' k k',
  Forall2 Migration.same_entry u u' ->
  Forall2 Migration.same_entry
    (fst (fold_left (Migration.stage clock) rows (u, k)))
    (fst (fold_left (Migration.stage clock') rows (u', k'))).
Proof.
  induction rows as [|r rows IH]; intros u u' k k' H; cbn [fold_left];
    [exact H|].
  assert (Ex : forall x,
             existsb (fun e => Nat.eqb (Migration.s_block_id e) x) u'
             = existsb (fun e => Nat.eqb (Migration.s_block_id e) x) u).
  { intros x. induction H as [|e e' u u' (Eid & _) _ IHu]; cbn; [reflexivity|].
    now rewrite Eid, IHu. }
  unfold Migration.stage at 2 4. rewrite Ex.
  destruct (existsb _ u); [now apply IH|].
  apply IH. apply Forall2_app; [exact H|].
  constructor; [|constructor]. now repeat split.
Qed.

(** *** migrateBlocks *)

(** X19. migrateBlocks never raises and writes to blocks only: the stored
    block ids keep their order, the ids added behind them are ids of source
    rows that had no block before, a primary key that was unique stays
    unique, and a block whose id is not among the source rows is neither
    changed nor removed nor added. *)
Theorem migrateBlocks_effect clock now blockDetails w :
  let r := Migration.migrateBlocks clock now blockDetails w in
  let source := match blockDetails with
                | Some rows => map Migration.block_id rows
                | None => []
                end in
  fst r = Ok tt
  /\ same_but_blocks (db w) (db (snd r))
  /\ (exists added,
        map Blocks.block_id (blocks (db (snd r)))
        = (map Blocks.block_id (blocks (db w)) ++ added)%list
        /\ incl added source
        /\ forall id, In id added -> block_exists id (db w) = false)
  /\ (NoDup (map Blocks.block_id (blocks (db w))) ->
      NoDup (map Blocks.block_id (blocks (db (snd r)))))
  /\ (forall b, ~ In (Blocks.block_id b) source ->
                In b (blocks (db (snd r))) <-> In b (blocks (db w))).
Proof.
  cbn zeta.
  destruct (Migration.migrateBlocks clock now blockDetails w) as [r w'] eqn:E.
  cbn [fst snd]. unfold Migration.migrateBlocks in E. said E.
  unfold try_catch in E.
  destruct blockDetails as [rows|].
  - destruct (stage_all clock rows [] 0%nat) as (Hnd & Hids & _);
      [constructor|].
    cbn zeta in Hnd, Hids. fold (Migration.unique_blocks clock rows) in Hnd, Hids.
    unfold bind at 1 in E.
    destruct (import_blocks_runs now (Migration.unique_blocks clock rows) 0%nat
                (mk_world (db w)
                   (console w ++ [console_log "Migrating blocks..."])) Hnd)
      as (done & rest & r0 & s' & Es & _ & Hend & Er & Hs & (a & Ha & Hin & Hnew)
          & Hk & Hother & _).
    rewrite Er in E. cbn [db console] in *.
    assert (Hsub : incl (map Migration.s_block_id done)
                        (map Migration.block_id rows)).
    { intros id Hid.
      assert (In id (map Migration.s_block_id
                       (Migration.unique_blocks clock rows))) as Hu.
      { rewrite Es, map_app. apply in_or_app. now left. }
      apply Hids in Hu as [[]|Hu]. exact Hu. }
    assert (r = Ok tt /\ db w' = s') as [-> ->].
    { destruct Hend as [[_ ->]|(e & rest' & err & _ & _ & ->)];
        unfold say in E; cbn [db console] in E; injection E as <- <-; auto. }
    split; [reflexivity|]. split; [exact Hs|].
    split; [|split; [exact Hk|]].
    + exists a. split; [exact Ha|]. split; [|exact Hnew].
      intros id Hid. apply Hsub. now apply Hin.
    + intros b Hb. apply Hother. intros Hd. apply Hb. now apply Hsub.
  - injection E as <- <-. cbn [say snd db].
    split; [reflexivity|]. split; [repeat split|].
    split; [|split; [auto|intros; reflexivity]].
    exists []. rewrite app_nil_r. repeat split; [apply incl_refl|].
    intros id [].
Qed.

Lemma not_in_map_Forall {A} (f : A -> nat) (x : nat) (l : list A) :
  ~ In x (map f l) -> Forall (fun y => ~ f y = x) l.
Proof.
  intros H. apply Forall_forall. intros y Hy E. apply H. rewrite <- E.
  now apply in_map.
Qed.

(** The entry staged for a block id is made from the first source row with
    that id. *)
Lemma unique_blocks_first clock rows before row after :
  rows = (before ++ row :: after)%list ->
  ~ In (Migration.block_id row) (map Migration.block_id before) ->
  exists e,
    In e (Migration.unique_blocks clock rows)
    /\ Migration.s_block_id e = Migration.block_id row
    /\ Migration.s_name e = Migration.block_name row
    /\ Migration.s_block_type e = or_else (Migration.block_type row) "session"
    /\ Migration.s_description e
       = "Migrated block: " ++ Migration.spliced (Migration.block_name row).
Proof.
  intros Er Hfirst.
  destruct (stage_all clock rows [] 0%nat) as (_ & Hids & Hrows);
    [constructor|].
  cbn zeta in Hids, Hrows. fold (Migration.unique_blocks clock rows) in Hids, Hrows.
  assert (In (Migration.block_id row)
             (map Migration.s_block_id (Migration.unique_blocks clock rows)))
    as He.
  { apply Hids. right. rewrite Er, map_app. apply in_or_app. right. now left. }
  apply in_map_iff in He as (e & Eid & He). exists e. split; [exact He|].
  destruct (Hrows e He) as [[]|(_ & b' & r' & a' & Er' & Eid' & Hfirst' & Hf)].
  rewrite Er in Er'.
  destruct (first_split_unique
              (fun y => Migration.block_id y = Migration.block_id row)
              before b' row after r' a' Er') as (_ & <- & _); auto.
  - now apply not_in_map_Forall.
  - rewrite <- Eid. now apply not_in_map_Forall.
  - congruence.
Qed.

(** A row that fits as it is is stored as it is. *)
Lemma importable_fits row :
  Migration.importable row = true ->
  exists name,
    Migration.block_name row = Some name
    /\ Migration.constraints (Migration.block_name row)
         (or_else (Migration.block_type row) "session")
       = Ok (name, or_else (Migration.block_type row) "session").
Proof.
  unfold Migration.importable, Migration.constraints.
  destruct (Migration.block_name row) as [name|]; [|discriminate].
  intros H. apply andb_true_iff in H as [H1 H2].
  exists name. split; [reflexivity|].
  cbn [option_map]. unfold Migration.varchar. now rewrite H1, H2.
Qed.

Lemma importable_accepted rows :
  Forall (fun row => Migration.importable row = true) rows ->
  Forall (fun row => Migration.accepted row = true) rows.
Proof.
  apply Forall_impl. intros row H.
  destruct (importable_fits row H) as (name & _ & E).
  unfold Migration.accepted. now rewrite E.
Qed.

Lemma unique_blocks_acceptable clock rows :
  Forall (fun row => Migration.accepted row = true) rows ->
  Forall (fun e => Migration.acceptable e = true)
         (Migration.unique_blocks clock rows).
Proof.
  intros H. apply Forall_forall. intros e He.
  destruct (stage_all clock rows [] 0%nat) as (_ & _ & Hrows);
    [constructor|].
  destruct (Hrows e He) as [[]|(_ & b & r & a & Er & _ & _ & En & Et & _)].
  assert (Hr : Migration.accepted r = true).
  { rewrite Forall_forall in H. apply H. rewrite Er. apply in_or_app.
    right. now left. }
  unfold Migration.accepted in Hr. unfold Migration.acceptable.
  now rewrite En, Et.
Qed.

(** X20. When every source row has a name of at most 255 characters and a
    type of at most 50, the migration reports the number of distinct block
    ids, and every block id of the source is stored afterwards with the
    name, the type ("session" when the row has none) and the description
    "Migrated block: <name>" of the first source row with that id, and with
    no creator in its metadata. *)
Theorem migrateBlocks_complete clock now rows w :
  Forall (fun row => Migration.importable row = true) rows ->
  let r := Migration.migrateBlocks clock now (Some rows) w in
  console (snd r)
  = (console w
     ++ [console_log "Migrating blocks...";
         console_log ("Migrated "
                      ++ Migration.decimal
                           (List.length (Migration.unique_blocks clock rows))
                      ++ " blocks")])%list
  /\ forall before row after,
       rows = (before ++ row :: after)%list ->
       ~ In (Migration.block_id row) (map Migration.block_id before) ->
       (exists b, In b (blocks (db (snd r)))
                  /\ Blocks.block_id b = Migration.block_id row)
       /\ forall b, In b (blocks (db (snd r))) ->
                    Blocks.block_id b = Migration.block_id row ->
                    Some (Blocks.name b) = Migration.block_name row
                    /\ Blocks.block_type b
                       = Some (or_else (Migration.block_type row) "session")
                    /\ Blocks.description b
                       = Some ("Migrated block: "
                               ++ Migration.spliced (Migration.block_name row))
                    /\ Blocks.created_by b = None.
Proof.
  intros Hrows. cbn zeta.
  destruct (Migration.migrateBlocks clock now (Some rows) w) as [r w'] eqn:E.
  cbn [fst snd]. unfold Migration.migrateBlocks in E. said E.
  unfold try_catch in E. unfold bind at 1 in E.
  destruct (stage_all clock rows [] 0%nat) as (Hnd & _); [constructor|].
  cbn zeta in Hnd. fold (Migration.unique_blocks clock rows) in Hnd.
  pose proof (unique_blocks_acceptable clock rows (importable_accepted rows Hrows))
    as Hacc.
  destruct (import_blocks_runs now (Migration.unique_blocks clock rows) 0%nat
              (mk_world (db w)
                 (console w ++ [console_log "Migrating blocks..."])) Hnd)
    as (done & rest & r0 & s' & Es & _ & Hend & Er & _ & _ & _ & _ & Hdone).
  rewrite Er in E. cbn [db console] in *.
  destruct Hend as [[-> ->]|(e & rest' & err & -> & Hbad & _)].
  2:{ rewrite Es, Forall_forall in Hacc. rewrite Hacc in Hbad; [discriminate|].
      apply in_or_app. right. now left. }
  rewrite app_nil_r in Es. subst done.
  unfold say in E. cbn [db console] in E. injection E as <- <-.
  cbn [db console]. split; [now rewrite <- app_assoc|].
  intros before row after Erows Hfirst.
  destruct (unique_blocks_first clock rows before row after Erows Hfirst)
    as (e & He & Eid & En & Et & Ed).
  destruct (Hdone e He) as [Hhas Himp].
  rewrite <- Eid. split; [exact Hhas|].
  intros b Hb Eb. destruct (Himp b Hb Eb) as (n & t & Ec & I1 & I2 & I3 & I4).
  assert (Hrow : Migration.importable row = true).
  { rewrite Forall_forall in Hrows. apply Hrows. rewrite Erows.
    apply in_or_app. right. now left. }
  destruct (importable_fits row Hrow) as (name & Ename & Efit).
  rewrite En, Et, Efit in Ec. injection Ec as <- <-.
  rewrite Ename, I1, I2, I3, I4, Ed, Ename. repeat split; reflexivity.
Qed.

Lemma migrateBlocks_complete_witness :
  let rows := [Migration.mk_detail 7%nat (Some "Standup") None;
               Migration.mk_detail 7%nat (Some "Standup, day 2") (Some "meeting");
               Migration.mk_detail 9%nat (Some "Retro") (Some "meeting")] in
  let r := Migration.migrateBlocks (fun _ => Sample.t0) (fun _ => Sample.t1)
             (Some rows) (mk_world empty_store []) in
  Forall (fun row => Migration.importable row = true) rows
  /\ console (snd r) = [console_log "Migrating blocks...";
                        console_log "Migrated 2 blocks"]
  /\ exists b, In b (blocks (db (snd r))) /\ Blocks.block_id b = 7%nat.
Proof.
  cbn zeta.
  assert (H : Forall (fun row => Migration.importable row = true)
                [Migration.mk_detail 7%nat (Some "Standup") None;
                 Migration.mk_detail 7%nat (Some "Standup, day 2")
                   (Some "meeting");
                 Migration.mk_detail 9%nat (Some "Retro") (Some "meeting")]).
  { repeat constructor. }
  split; [exact H|].
  destruct (migrateBlocks_complete (fun _ => Sample.t0) (fun _ => Sample.t1)
              _ (mk_world empty_store []) H) as [Hc Hb].
  split; [exact Hc|].
  apply (Hb [] (Migration.mk_detail 7%nat (Some "Standup") None)
            [Migration.mk_detail 7%nat (Some "Standup, day 2") (Some "meeting");
             Migration.mk_detail 9%nat (Some "Retro") (Some "meeting")]
            eq_refl).
  intros [].
Defined.

(** Up to the first row of a block id, the staged entries are those of the
    rows before it. *)
Lemma unique_blocks_until clock before row after :
  ~ In (Migration.block_id row) (map Migration.block_id before) ->
  exists e ext,
    Migration.unique_blocks clock (before ++ row :: after)
    = (Migration.unique_blocks clock before ++ e :: ext)%list
    /\ Migration.s_name e = Migration.block_name row
    /\ Migration.s_block_type e = or_else (Migration.block_type row) "session".
Proof.
  intros Hfirst. unfold Migration.unique_blocks.
  rewrite fold_left_app. cbn [fold_left].
  destruct (stage_all clock before [] 0%nat) as (_ & Hids & _); [constructor|].
  cbn zeta in Hids.
  destruct (fold_left (Migration.stage clock) before ([], 0%nat)) as [u k].
  cbn [fst] in *. unfold Migration.stage at 2.
  destruct (existsb _ u) eqn:Ex.
  { exfalso. apply existsb_exists in Ex as (e & He & Eq).
    apply Nat.eqb_eq in Eq. apply Hfirst.
    assert (In (Migration.s_block_id e) (map Migration.s_block_id u)) as Hin
      by now apply in_map.
    rewrite Eq in Hin. apply Hids in Hin as [[]|Hin]. exact Hin. }
  match goal with
  | |- context [fold_left _ after (?u1, ?k1)] =>
      destruct (stage_extends clock after u1 k1) as (ext & ->)
  end.
  rewrite <- app_assoc. cbn [app]. eexists _, ext. split; [reflexivity|].
  split; reflexivity.
Qed.

(** X21. The import is not one transaction.  When the first source row the
    store rejects (no name, or a name or type that does not fit its column)
    is the first row of its block id, the blocks of the rows before it are
    stored and stay stored, no block of a later row is written, and the
    function ends with its error line instead of raising. *)
Theorem migrateBlocks_stops_at_rejected_row clock now before row after w :
  Forall (fun x => Migration.accepted x = true) before ->
  Migration.accepted row = false ->
  ~ In (Migration.block_id row) (map Migration.block_id before) ->
  let r := Migration.migrateBlocks clock now
             (Some (before ++ row :: after)%list) w in
  console (snd r)
  = (console w ++ [console_log "Migrating blocks...";
                   console_error "Error migrating blocks:"])%list
  /\ (forall id, In id (map Migration.block_id before) ->
                 block_exists id (db (snd r)) = true)
  /\ (forall id, ~ In id (map Migration.block_id before) ->
                 block_exists id (db (snd r)) = block_exists id (db w)).
Proof.
  intros Hgood Hbad Hfirst. cbn zeta.
  destruct (Migration.migrateBlocks clock now _ w) as [r w'] eqn:E.
  cbn [fst snd]. unfold Migration.migrateBlocks in E. said E.
  unfold try_catch in E. unfold bind at 1 in E.
  destruct (stage_all clock (before ++ row :: after) [] 0%nat) as (Hnd & _);
    [constructor|].
  cbn zeta in Hnd.
  fold (Migration.unique_blocks clock (before ++ row :: after)) in Hnd.
  destruct (unique_blocks_until clock before row after Hfirst)
    as (e & ext & Eu & En & Et).
  assert (He : Migration.acceptable e = false).
  { unfold Migration.accepted in Hbad. unfold Migration.acceptable.
    now rewrite En, Et. }
  pose proof (unique_blocks_acceptable clock before Hgood) as Hacc.
  destruct (stage_all clock before [] 0%nat) as (_ & Hids & _); [constructor|].
  cbn zeta in Hids. fold (Migration.unique_blocks clock before) in Hids.
  destruct (import_blocks_runs now
              (Migration.unique_blocks clock (before ++ row :: after)) 0%nat
              (mk_world (db w)
                 (console w ++ [console_log "Migrating blocks..."])) Hnd)
    as (done & rest & r0 & s' & Es & Hd & Hend & Er & _ & (a & Ha & Hin & _)
        & _ & _ & Hdone).
  rewrite Er in E. cbn [db console] in *. rewrite Eu in Es.
  assert (Hno : forall l, Forall (fun x => Migration.acceptable x = true) l ->
                          Forall (fun x => ~ Migration.acceptable x = false) l).
  { intros l. apply Forall_impl. intros x ->. discriminate. }
  destruct Hend as [[-> ->]|(e' & rest' & err & -> & Hbad' & ->)].
  { exfalso. rewrite app_nil_r in Es. subst done.
    rewrite Forall_forall in Hd. rewrite Hd in He; [discriminate|].
    apply in_or_app. right. now left. }
  destruct (first_split_unique (fun x => Migration.acceptable x = false)
              _ _ e ext e' rest' Es) as (<- & _); auto.
  unfold say in E. cbn [db console] in E. injection E as <- <-.
  cbn [db console]. split; [now rewrite <- app_assoc|].
  assert (Hsame : forall id,
             In id (map Migration.s_block_id (Migration.unique_blocks clock before))
             <-> In id (map Migration.block_id before)).
  { intros id. rewrite Hids. cbn. tauto. }
  split.
  - intros id Hid. apply Hsame, in_map_iff in Hid as (e0 & <- & He0).
    destruct (Hdone e0 He0) as [(b & Hb & Eb) _].
    apply block_exists_in. rewrite <- Eb. now apply in_map.
  - intros id Hid.
    destruct (block_exists id s') eqn:E1, (block_exists id (db w)) eqn:E2;
      try reflexivity; exfalso.
    + apply block_exists_in in E1. rewrite Ha in E1.
      apply in_app_or in E1 as [E1|E1].
      * apply block_exists_in in E1. congruence.
      * apply Hid, Hsame. now apply Hin.
    + apply block_exists_in in E2.
      assert (block_exists id s' = true); [|congruence].
      apply block_exists_in. rewrite Ha. apply in_or_app. now left.
Qed.

Lemma migrateBlocks_stops_at_rejected_row_witness :
  let r := Migration.migrateBlocks (fun _ => Sample.t0) (fun _ => Sample.t1)
             (Some [Migration.mk_detail 7%nat (Some "Standup") None;
                    Migration.mk_detail 9%nat None (Some "meeting");
                    Migration.mk_detail 11%nat (Some "Retro") None])
             (mk_world empty_store []) in
  console (snd r) = [console_log "Migrating blocks...";
                     console_error "Error migrating blocks:"]
  /\ block_exists 7%nat (db (snd r)) = true
  /\ block_exists 11%nat (db (snd r)) = false.
Proof.
  cbn zeta.
  destruct (migrateBlocks_stops_at_rejected_row
              (fun _ => Sample.t0) (fun _ => Sample.t1)
              [Migration.mk_detail 7%nat (Some "Standup") None]
              (Migration.mk_detail 9%nat None (Some "meeting"))
              [Migration.mk_detail 11%nat (Some "Retro") None]
              (mk_world empty_store []))
    as (Hc & Hin & Hout).
  - repeat constructor.
  - reflexivity.
  - cbn. intros [H|[]]. discriminate H.
  - split; [exact Hc|]. split.
    + apply Hin. cbn. now left.
    + rewrite Hout; [reflexivity|]. cbn. intros [H|[]]. discriminate H.
Defined.

(** *** Running the migration again *)

Lemma Forall2_map_in {A} (R : A -> A -> Prop) (f : A -> A) (l : list A) :
  (forall x, In x l -> R x (f x)) -> Forall2 R l (map f l).
Proof.
  induction l as [|x l IH]; intros H; cbn; constructor.
  - apply H. now left.
  - apply IH. intros y Hy. apply H. now right.
Qed.

Lemma Forall2_in_r {A B} (R : A -> B -> Prop) l l' y :
  Forall2 R l l' -> In y l' -> exists x, In x l /\ R x y.
Proof.
  induction 1 as [|x y' l l' Hxy _ IH]; intros Hy; [destruct Hy|].
  destruct Hy as [<-|Hy].
  - exists x. split; [now left|assumption].
  - destruct (IH Hy) as (x0 & H1 & H2). exists x0. split; [now right|assumption].
Qed.

Lemma same_but_updated_at_all_refl (l : list Blocks.row) :
  Forall2 same_but_updated_at l l.
Proof. induction l; constructor; [now repeat split|assumption]. Qed.

Lemma same_but_updated_at_all_trans (l1 l2 l3 : list Blocks.row) :
  Forall2 same_but_updated_at l1 l2 -> Forall2 same_but_updated_at l2 l3 ->
  Forall2 same_but_updated_at l1 l3.
Proof.
  intros H. revert l3.
  induction H as [|x y l1 l2 (A1 & A2 & A3 & A4 & A5 & A6) _ IH]; intros l3 H3;
    inversion H3 as [|y' z l2' l3' (B1 & B2 & B3 & B4 & B5 & B6) Hrest]; subst;
    constructor; [|now apply IH].
  repeat split; congruence.
Qed.

(** Over a block that already has the entry's columns the upsert changes
    [updated_at] only. *)
Lemma upsert_block_again now e s :
  Migration.acceptable e = true ->
  block_exists (Migration.s_block_id e) s = true ->
  (forall b, In b (blocks s) ->
             Blocks.block_id b = Migration.s_block_id e ->
             Migration.imported e b) ->
  Forall2 same_but_updated_at
          (blocks s) (blocks (snd (Migration.upsert_block now e s))).
Proof.
  unfold Migration.acceptable, Migration.upsert_block, Migration.imported.
  destruct (Migration.constraints _ _) as [[name block_type]|err];
    [|discriminate].
  intros _ Ex Himp. rewrite Ex. cbn [snd blocks].
  apply Forall2_map_in. intros b Hb.
  destruct (Nat.eqb (Blocks.block_id b) _) eqn:Eq; [|now repeat split].
  apply Nat.eqb_eq in Eq.
  destruct (Himp b Hb Eq) as (n & t & E & I1 & I2 & I3 & I4).
  injection E as <- <-. repeat split; cbn; congruence.
Qed.

Lemma import_blocks_again now : forall done rest i w,
  NoDup (map Migration.s_block_id done) ->
  Forall (fun e => Migration.acceptable e = true) done ->
  (rest = [] \/ exists e rest', rest = e :: rest'
                                /\ Migration.acceptable e = false) ->
  (forall e, In e done ->
     (exists b, In b (blocks (db w))
                /\ Blocks.block_id b = Migration.s_block_id e)
     /\ forall b, In b (blocks (db w)) ->
                  Blocks.block_id b = Migration.s_block_id e ->
                  Migration.imported e b) ->
  exists r s',
    Migration.import_blocks now i (done ++ rest) w
    = (r, mk_world s' (console w))
    /\ same_but_blocks (db w) s'
    /\ Forall2 same_but_updated_at (blocks (db w)) (blocks s').
Proof.
  induction done as [|e done IH]; intros rest i w Hnd Hacc Hrest Hdone.
  - cbn [app]. destruct Hrest as [->|(e & rest' & -> & Hbad)].
    + exists (Ok tt), (db w). cbn [Migration.import_blocks ret].
      rewrite world_eta. split; [reflexivity|]. split; [repeat split|].
      apply same_but_updated_at_all_refl.
    + cbn [Migration.import_blocks]. unfold bind, query.
      destruct (upsert_block_rejects (now i) e (db w) Hbad) as (err & ->).
      exists (Throw err), (db w). split; [reflexivity|].
      split; [repeat split|]. apply same_but_updated_at_all_refl.
  - cbn [app Migration.import_blocks]. unfold bind, query.
    inversion Hacc as [|? ? Ae Hacc']; subst.
    cbn [map] in Hnd. apply NoDup_cons_iff in Hnd as [Hfresh Hnd].
    destruct (Hdone e (or_introl eq_refl)) as [(b0 & Hb0 & Eb0) Himp].
    assert (Ex : block_exists (Migration.s_block_id e) (db w) = true).
    { apply block_exists_in. rewrite <- Eb0. now apply in_map. }
    pose proof (upsert_block_again (now i) e (db w) Ae Ex Himp) as Hagain.
    destruct (upsert_block_accepts (now i) e (db w) Ae)
      as (s1 & Eu & Hs1 & _ & Hother & _).
    rewrite Eu in Hagain |- *. cbn [snd] in Hagain.
    assert (Hne : forall e2 b, In e2 done ->
                    Blocks.block_id b = Migration.s_block_id e2 ->
                    Blocks.block_id b <> Migration.s_block_id e).
    { intros e2 b He2 Eb Eq. apply Hfresh. rewrite <- Eq, Eb.
      now apply in_map. }
    destruct (IH rest (S i) (mk_world s1 (console w)) Hnd Hacc' Hrest)
      as (r & s' & -> & Hs' & Hall).
    { intros e2 He2. cbn [db].
      destruct (Hdone e2 (or_intror He2)) as [(b & Hb & Eb) Himp2]. split.
      - exists b. split; [|exact Eb]. apply Hother; [|exact Hb]. eauto.
      - intros b' Hb' Eb'. apply Himp2; [|exact Eb'].
        apply Hother; [|exact Hb']. eauto. }
    cbn [db console] in *. exists r, s'. split; [reflexivity|].
    split; [eapply same_but_blocks_trans; eassumption|].
    eapply same_but_updated_at_all_trans; eassumption.
Qed.

Lemma migrateBlocks_db clock now rows w r s' c :
  Migration.import_blocks now 0 (Migration.unique_blocks clock rows)
    (mk_world (db w) (console w ++ [console_log "Migrating blocks..."]))
  = (r, mk_world s' c) ->
  db (snd (Migration.migrateBlocks clock now (Some rows) w)) = s'.
Proof.
  intros E. unfold Migration.migrateBlocks.
  unfold bind at 1. unfold say at 1. unfold try_catch. unfold bind at 1.
  rewrite E. destruct r; reflexivity.
Qed.

Lemma same_entry_acceptable e e' :
  Migration.same_entry e e' ->
  Migration.acceptable e' = Migration.acceptable e.
Proof.
  intros (_ & En & Et & _). unfold Migration.acceptable. now rewrite En, Et.
Qed.

(** X22. Running migrateBlocks a second time on the same source rows, at
    any clock, changes nothing but [updated_at] of the blocks: no row is
    added or removed, and every block keeps its id, name, description, type,
    creator and [created_at]; the other tables are left alone. *)
Theorem migrateBlocks_twice clock now clock' now' blockDetails w :
  let w1 := snd (Migration.migrateBlocks clock now blockDetails w) in
  let w2 := snd (Migration.migrateBlocks clock' now' blockDetails w1) in
  same_but_blocks (db w1) (db w2)
  /\ Forall2 same_but_updated_at (blocks (db w1)) (blocks (db w2)).
Proof.
  cbn zeta. destruct blockDetails as [rows|].
  2:{ cbn. split; [repeat split|apply same_but_updated_at_all_refl]. }
  destruct (stage_all clock rows [] 0%nat) as (Hnd & _); [constructor|].
  cbn zeta in Hnd. fold (Migration.unique_blocks clock rows) in Hnd.
  destruct (import_blocks_runs now (Migration.unique_blocks clock rows) 0%nat
              (mk_world (db w)
                 (console w ++ [console_log "Migrating blocks..."])) Hnd)
    as (done & rest & r & s1 & Es & Hacc & Hend & Er & _ & _ & _ & _ & Hdone).
  rewrite (migrateBlocks_db clock now rows w r s1 _ Er).
  set (w1 := snd (Migration.migrateBlocks clock now (Some rows) w)).
  assert (E1 : db w1 = s1) by apply (migrateBlocks_db clock now rows w r s1 _ Er).
  pose proof (stage_same_entries clock clock' rows [] [] 0%nat 0%nat
                (Forall2_nil _)) as Hsame.
  fold (Migration.unique_blocks clock rows) in Hsame.
  fold (Migration.unique_blocks clock' rows) in Hsame.
  rewrite Es in Hsame.
  apply Forall2_app_inv_l in Hsame as (done' & rest' & Hd & Hr & Es').
  assert (Hids : map Migration.s_block_id done' = map Migration.s_block_id done).
  { clear - Hd. induction Hd as [|e e' l l' (Eid & _) _ IH]; cbn;
      [reflexivity|]. now rewrite Eid, IH. }
  destruct (import_blocks_again now' done' rest' 0%nat
              (mk_world (db w1)
                 (console w1 ++ [console_log "Migrating blocks..."])))
    as (r2 & s2 & Er2 & Hs2 & Hall).
  - rewrite Hids. rewrite Es, map_app in Hnd.
    now apply NoDup_app_remove_r in Hnd.
  - apply Forall_forall. intros e' He'.
    destruct (Forall2_in_r _ _ _ _ Hd He') as (e & He & Hee).
    rewrite (same_entry_acceptable e e' Hee).
    rewrite Forall_forall in Hacc. now apply Hacc.
  - destruct Hend as [[-> _]|(e & rest0 & err & -> & Hbad & _)].
    + inversion Hr. now left.
    + inversion Hr as [|? e' ? rest0' Hee Hr']; subst. right.
      exists e', rest0'. split; [reflexivity|].
      now rewrite (same_entry_acceptable e e' Hee).
  - intros e' He'. cbn [db]. rewrite E1.
    destruct (Forall2_in_r _ _ _ _ Hd He') as (e & He & (Eid & En & Et & Ed)).
    destruct (Hdone e He) as [Hhas Himp]. rewrite Eid. split; [exact Hhas|].
    intros b Hb Eb. destruct (Himp b Hb Eb) as (n & t & Ec & I1 & I2 & I3 & I4).
    exists n, t. rewrite En, Et, Ed. auto.
  - rewrite <- Es' in Er2. cbn [db console] in *.
    rewrite (migrateBlocks_db clock' now' rows w1 r2 s2 _ Er2).
    rewrite <- E1. split; assumption.
Qed.

(** *** resetSequences *)

(** X23. After resetSequences has run on a table whose attendee ids are all
    at least 1, the next attendee the store accepts gets an id greater than
    every id stored, and is appended behind the rows that were there. *)
Theorem attendee_id_fresh_after_reset w now blockId speakerName story a s' :
  Forall (fun x => 1 <= BlockAttendees.id x) (block_attendees (db w)) ->
  let w0 := snd (Migration.resetSequences None w) in
  insert_attendee now blockId speakerName story (db w0) = (Ok a, s') ->
  console w0 = (console w ++ [console_log "Resetting sequences...";
                              console_log "Sequences reset"])%list
  /\ Forall (fun x => BlockAttendees.id x < BlockAttendees.id a)
            (block_attendees (db w))
  /\ block_attendees s' = (block_attendees (db w) ++ [a])%list.
Proof.
  intros Hpos. cbn zeta.
  destruct (Migration.resetSequences None w) as [r w0] eqn:E. cbn [snd].
  unfold Migration.resetSequences in E. said E.
  unfold try_catch, bind, query, Migration.reset_attendees_sequence in E.
  cbn [db console] in E.
  destruct (sql_max (map BlockAttendees.id (block_attendees (db w))))
    as [m|] eqn:Em.
  - assert (Hm : 1 <= m).
    { apply sql_max_member, in_map_iff in Em as (x & <- & Hx).
      rewrite Forall_forall in Hpos. now apply Hpos. }
    apply Z.ltb_ge in Hm. rewrite Hm in E. unfold say in E.
    cbn [db console] in E. injection E as <- <-. cbn [db console].
    intros Hins. split; [now rewrite <- app_assoc|].
    unfold insert_attendee in Hins.
    cbn [blocks block_meetings block_attendees turns block_turns uuid_gen
         block_attendees_id_seq] in Hins.
    destruct speakerName as [n|]; [|discriminate].
    destruct (negb _); [discriminate|].
    destruct (attendees_named _ _ _); [|discriminate].
    injection Hins as <- <-. cbn [block_attendees BlockAttendees.id].
    split; [|reflexivity].
    apply sql_max_bound in Em. rewrite Forall_map in Em.
    eapply Forall_impl; [|exact Em]. cbn. intros; lia.
  - apply sql_max_none, map_eq_nil in Em.
    change (1 <? 1) with false in E. unfold say in E.
    cbn [db console] in E. injection E as <- <-. cbn [db console].
    intros Hins. split; [now rewrite <- app_assoc|].
    unfold insert_attendee in Hins.
    cbn [blocks block_meetings block_attendees turns block_turns uuid_gen
         block_attendees_id_seq] in Hins.
    destruct speakerName as [n|]; [|discriminate].
    destruct (negb _); [discriminate|].
    destruct (attendees_named _ _ _); [|discriminate].
    injection Hins as <- <-. cbn [block_attendees].
    split; [|reflexivity]. rewrite Em. constructor.
Qed.

Lemma attendee_id_fresh_after_reset_witness :
  let w := mk_world
             (mk_store (blocks (db Sample.standup)) []
                [BlockAttendees.mk 41 0%nat "Dana" None None None
                   Sample.t0 Sample.t0]
                [] [] 1%nat 0) [] in
  exists a s',
    insert_attendee Sample.t1 0%nat (Some "Ravi") "Ravi joined the meeting."
      (db (snd (Migration.resetSequences None w))) = (Ok a, s')
    /\ BlockAttendees.id a = 42
    /\ Forall (fun x => BlockAttendees.id x < BlockAttendees.id a)
              (block_attendees (db w)).
Proof.
  cbn zeta. eexists _, _.
  match goal with
  | |- ?E /\ _ => assert (Hins : E) by (vm_compute; reflexivity)
  end.
  split; [exact Hins|]. split; [reflexivity|].
  refine (proj1 (proj2 (attendee_id_fresh_after_reset _ _ _ _ _ _ _ _ Hins))).
  repeat constructor. cbn. lia.
Defined.
